(** * Merge-mining client for Tari: the loopback proxy and the published
      chain parameters (src/merge_mining_client_tari.cpp)

    The model comes first:
    - [HostString]: the host-string prelude of the constructor;
    - [Proxy]: [TariServer] and [TariClient], in a state-and-failure monad
      over a heap of pooled connection objects addressed by pointer;
    - [Client]: [get_params], [submit_solution], the chain-id fetch job and
      the reader/writer lock around [m_chainParams];
    - [Construction]: the constructor, the work it queues and the steps of
      the other threads;
    - [Scenario]: concrete servers, clients and nodes.
    The properties follow, in the same order. Code of the repository that
    is outside merge_mining_client_tari.cpp (the header, tcp_server, common)
    is either a parameter or a definition marked as modelled from the
    spec. *)

From Stdlib Require Import ZArith Lia Ascii String List.
From Stdlib.Strings Require Import Byte.
From stdpp Require Import gmap strings list fin_maps.
From Equations Require Import Equations.

Local Open Scope Z_scope.

(** Outcome of a piece of C++ code that can throw or hit undefined
    behaviour. *)
Inductive outcome (A : Type) : Type :=
| Returns (a : A)     (* normal completion *)
| Throws              (* throw std::exception() *)
| Undefined.          (* precondition of a library call violated *)
Arguments Returns {A} a.
Arguments Throws {A}.
Arguments Undefined {A}.

(* ===================================================================== *)
Module HostString.

Local Open Scope string_scope.

(** std::string::find(pat) from position 0: index of the first occurrence,
    [None] for npos. *)
Fixpoint find_at (pat s : string) (pos : nat) : option nat :=
  if String.prefix pat s then Some pos
  else match s with
       | EmptyString => None
       | String _ s' => find_at pat s' (S pos)
       end.

Definition find (s pat : string) : option nat := find_at pat s 0%nat.

(** host.erase(0, n) *)
Fixpoint erase_front (n : nat) (s : string) : string :=
  match n, s with
  | O, _ => s
  | S _, EmptyString => EmptyString
  | S n', String _ s' => erase_front n' s'
  end.

(** host.back(): the last character; the call has the precondition
    !empty(), [None] stands for the violated precondition. *)
Fixpoint back (s : string) : option ascii :=
  match s with
  | EmptyString => None
  | String c EmptyString => Some c
  | String _ s' => back s'
  end.

(** host.pop_back(); the loop calls it only after back() has found a last
    character. *)
Fixpoint pop_back (s : string) : string :=
  match s with
  | EmptyString => EmptyString
  | String _ EmptyString => EmptyString
  | String c s' => String c (pop_back s')
  end.

Definition empty (s : string) : bool :=
  match s with EmptyString => true | _ => false end.

Lemma pop_back_length s :
  s <> EmptyString -> (String.length (pop_back s) < String.length s)%nat.
Proof.
  induction s as [|c s IH]; [congruence|].
  intros _. destruct s as [|d s]; [simpl; lia|].
  change (pop_back (String c (String d s)))
    with (String c (pop_back (String d s))).
  simpl String.length in *. specialize (IH ltac:(congruence)). lia.
Qed.

(** Keeps the equation of a scrutinee for the termination proof. *)
Definition inspect {A} (a : A) : {b : A | a = b} := exist _ a eq_refl.

(** The loop of lines 44-46:
      while (host.back() == '/') { host.pop_back(); } *)
Equations? strip_trailing (host : string) : outcome string
  by wf (String.length host) lt :=
  strip_trailing host with inspect (back host) := {
    | exist _ None _ => Undefined
    | exist _ (Some c) Hb =>
        if Ascii.eqb c "/"%char then strip_trailing (pop_back host)
        else Returns host }.
Proof.
  apply pop_back_length. intros ->. discriminate.
Qed.

(** Lines 37-51 of the constructor, up to the call of parse_address_list;
    [TARI_PREFIX] is declared in the header and taken as a parameter. *)
Definition normalize_host (TARI_PREFIX host : string) : outcome string :=
  if negb (bool_decide (find host TARI_PREFIX = Some 0%nat)) then Throws
  else
    let host := erase_front (String.length TARI_PREFIX) host in
    match strip_trailing host with
    | Returns host => if empty host then Throws else Returns host
    | Throws => Throws
    | Undefined => Undefined
    end.

(** n copies of '/' *)
Fixpoint slashes (n : nat) : string :=
  match n with O => EmptyString | S n' => String "/"%char (slashes n') end.

End HostString.

(* ===================================================================== *)
Module Proxy.

Definition UINT32_MAX : Z := 4294967295.

(** Address of a connection object. Connection objects are pooled and are
    never freed while the server runs, so an address is a key of the heap. *)
Abbreviation ptr := nat.

(** The arguments of a bind attempt: start_listening(is_v6, ip, port). *)
Record endpoint := mkEndpoint {
  e_is_v6 : bool;
  e_ip : string;
  e_port : Z
}.

(** What the transport layer (tcp_server, libuv, std::random_device) decides;
    none of it is in merge_mining_client_tari.cpp. *)
Class Transport := {
  raw_ip : Type;
  raw_ip_default : raw_ip;
  (** str_to_ip(is_v6, ip, out): address translation *)
  str_to_ip : bool -> string -> option raw_ip;
  (** log::Stream formatting of upstream->m_addrString *)
  format_addr : bool -> string -> Z -> string;
  (** outcome of the n-th connect attempt of the server *)
  tcp_connect : nat -> bool;
  (** the i-th draw rd() of std::random_device *)
  rd : nat -> Z;
  (** outcome of the i-th bind attempt, on the given address family,
      address and port *)
  tcp_bind : nat -> bool -> string -> Z -> bool;
  (** return value of uv_thread_create *)
  uv_thread_create : Z
}.

Section WithTransport.
Context `{Transport}.

(** TariClient with the fields of TCPServer::Client this file touches.
    [m_owner] is the null test of the owner pointer (there is one server);
    [m_isClosing] and [m_sent] stand for the socket: whether close() was
    called, and the bytes handed to the connection's outbound send path. *)
Record TariClient := mkTariClient {
  m_owner : bool;
  m_isIncoming : bool;
  m_isV6 : bool;
  m_port : Z;
  m_addr : raw_ip;
  m_addrString : string;
  m_resetCounter : Z;
  m_isClosing : bool;
  m_sent : list byte;
  m_pairedClient : option ptr;
  m_pairedClientSavedResetCounter : Z
}.

Definition set_owner (b : bool) (c : TariClient) : TariClient :=
  mkTariClient b (m_isIncoming c) (m_isV6 c) (m_port c) (m_addr c)
    (m_addrString c) (m_resetCounter c) (m_isClosing c) (m_sent c)
    (m_pairedClient c) (m_pairedClientSavedResetCounter c).

Definition set_port (p : Z) (c : TariClient) : TariClient :=
  mkTariClient (m_owner c) (m_isIncoming c) (m_isV6 c) p (m_addr c)
    (m_addrString c) (m_resetCounter c) (m_isClosing c) (m_sent c)
    (m_pairedClient c) (m_pairedClientSavedResetCounter c).

Definition set_isV6 (b : bool) (c : TariClient) : TariClient :=
  mkTariClient (m_owner c) (m_isIncoming c) b (m_port c) (m_addr c)
    (m_addrString c) (m_resetCounter c) (m_isClosing c) (m_sent c)
    (m_pairedClient c) (m_pairedClientSavedResetCounter c).

Definition set_addr (a : raw_ip) (c : TariClient) : TariClient :=
  mkTariClient (m_owner c) (m_isIncoming c) (m_isV6 c) (m_port c) a
    (m_addrString c) (m_resetCounter c) (m_isClosing c) (m_sent c)
    (m_pairedClient c) (m_pairedClientSavedResetCounter c).

Definition set_addrString (a : string) (c : TariClient) : TariClient :=
  mkTariClient (m_owner c) (m_isIncoming c) (m_isV6 c) (m_port c) (m_addr c)
    a (m_resetCounter c) (m_isClosing c) (m_sent c)
    (m_pairedClient c) (m_pairedClientSavedResetCounter c).

Definition set_resetCounter (n : Z) (c : TariClient) : TariClient :=
  mkTariClient (m_owner c) (m_isIncoming c) (m_isV6 c) (m_port c) (m_addr c)
    (m_addrString c) n (m_isClosing c) (m_sent c)
    (m_pairedClient c) (m_pairedClientSavedResetCounter c).

Definition set_isClosing (b : bool) (c : TariClient) : TariClient :=
  mkTariClient (m_owner c) (m_isIncoming c) (m_isV6 c) (m_port c) (m_addr c)
    (m_addrString c) (m_resetCounter c) b (m_sent c)
    (m_pairedClient c) (m_pairedClientSavedResetCounter c).

Definition set_sent (l : list byte) (c : TariClient) : TariClient :=
  mkTariClient (m_owner c) (m_isIncoming c) (m_isV6 c) (m_port c) (m_addr c)
    (m_addrString c) (m_resetCounter c) (m_isClosing c) l
    (m_pairedClient c) (m_pairedClientSavedResetCounter c).

Definition set_pairedClient (p : option ptr) (c : TariClient) : TariClient :=
  mkTariClient (m_owner c) (m_isIncoming c) (m_isV6 c) (m_port c) (m_addr c)
    (m_addrString c) (m_resetCounter c) (m_isClosing c) (m_sent c)
    p (m_pairedClientSavedResetCounter c).

Definition set_pairedClientSavedResetCounter (n : Z) (c : TariClient)
  : TariClient :=
  mkTariClient (m_owner c) (m_isIncoming c) (m_isV6 c) (m_port c) (m_addr c)
    (m_addrString c) (m_resetCounter c) (m_isClosing c) (m_sent c)
    (m_pairedClient c) n.

(** TariClient::TariClient(), lines 250-256, on top of a zero-initialised
    TCPServer::Client. *)
Definition TariClient_new : TariClient :=
  mkTariClient false false false 0 raw_ip_default EmptyString 0 false []
    None UINT32_MAX.

(** TariServer with the fields of TCPServer this file touches, and the heap
    of connection objects. [connects] and [binds] are ghost: the number of
    connect attempts made and the endpoints on which a bind was attempted. *)
Record TariServer := mkTariServer {
  m_TariNodeIsV6 : bool;
  m_TariNodeHost : string;
  m_TariNodePort : Z;
  m_listenPort : Z;
  m_loopThreadCreated : bool;
  m_callbackBuf : list byte;
  m_preallocatedClients : list ptr;
  heap : gmap nat TariClient;
  connects : nat;
  binds : list endpoint
}.

Definition set_heap (h : gmap nat TariClient) (s : TariServer) : TariServer :=
  mkTariServer (m_TariNodeIsV6 s) (m_TariNodeHost s) (m_TariNodePort s)
    (m_listenPort s) (m_loopThreadCreated s) (m_callbackBuf s)
    (m_preallocatedClients s) h (connects s) (binds s).

Definition set_preallocatedClients (l : list ptr) (s : TariServer)
  : TariServer :=
  mkTariServer (m_TariNodeIsV6 s) (m_TariNodeHost s) (m_TariNodePort s)
    (m_listenPort s) (m_loopThreadCreated s) (m_callbackBuf s)
    l (heap s) (connects s) (binds s).

Definition set_callbackBuf (b : list byte) (s : TariServer) : TariServer :=
  mkTariServer (m_TariNodeIsV6 s) (m_TariNodeHost s) (m_TariNodePort s)
    (m_listenPort s) (m_loopThreadCreated s) b
    (m_preallocatedClients s) (heap s) (connects s) (binds s).

Definition set_connects (n : nat) (s : TariServer) : TariServer :=
  mkTariServer (m_TariNodeIsV6 s) (m_TariNodeHost s) (m_TariNodePort s)
    (m_listenPort s) (m_loopThreadCreated s) (m_callbackBuf s)
    (m_preallocatedClients s) (heap s) n (binds s).

Definition set_binds (l : list endpoint) (s : TariServer) : TariServer :=
  mkTariServer (m_TariNodeIsV6 s) (m_TariNodeHost s) (m_TariNodePort s)
    (m_listenPort s) (m_loopThreadCreated s) (m_callbackBuf s)
    (m_preallocatedClients s) (heap s) (connects s) l.

Definition set_listenPort (p : Z) (s : TariServer) : TariServer :=
  mkTariServer (m_TariNodeIsV6 s) (m_TariNodeHost s) (m_TariNodePort s)
    p (m_loopThreadCreated s) (m_callbackBuf s)
    (m_preallocatedClients s) (heap s) (connects s) (binds s).

Definition set_loopThreadCreated (b : bool) (s : TariServer) : TariServer :=
  mkTariServer (m_TariNodeIsV6 s) (m_TariNodeHost s) (m_TariNodePort s)
    (m_listenPort s) b (m_callbackBuf s)
    (m_preallocatedClients s) (heap s) (connects s) (binds s).

(** ** The event-loop monad: server state, and failure for a dereference of
    an address that holds no connection object. *)
Definition M (A : Type) : Type := TariServer -> option (A * TariServer).

#[export] Instance M_ret : MRet M := fun A a s => Some (a, s).

#[export] Instance M_bind : MBind M := fun A B k m s =>
  match m s with
  | Some (a, s') => k a s'
  | None => None
  end.

(** Undefined behaviour: the run has no result. *)
Definition fail {A} : M A := fun _ => None.

Definition get : M TariServer := fun s => Some (s, s).
Definition put (s : TariServer) : M unit := fun _ => Some (tt, s).

(** *p *)
Definition load (p : ptr) : M TariClient :=
  fun s => match heap s !! p with
           | Some c => Some (c, s)
           | None => None
           end.

(** p->field = v *)
Definition modify (p : ptr) (f : TariClient -> TariClient) : M unit :=
  fun s => match heap s !! p with
           | Some c => Some (tt, set_heap (<[p := f c]> (heap s)) s)
           | None => None
           end.

(** Modelled from the spec: TariClient::is_paired is defined in the header,
    which is missing. "Currently paired" means a partner is stored and the
    stored partner epoch matches the partner's live epoch. *)
Definition is_paired (c : ptr) : M bool :=
  this ← load c;
  match m_pairedClient this with
  | None => mret false
  | Some p =>
      partner ← load p;
      mret (m_resetCounter partner =? m_pairedClientSavedResetCounter this)
  end.

(** Modelled from the spec: TCPServer::Client::close is missing. "Close the
    partner": the connection is marked as closing; its teardown, which ends
    in reset() and the release to the pool, is a later event of the loop. *)
Definition close (c : ptr) : M unit := modify c (set_isClosing true).

(** this->m_pairedClient, about to be dereferenced or passed on: a null
    pointer names no object. *)
Definition pairedClient (c : ptr) : M ptr :=
  this ← load c;
  match m_pairedClient this with
  | Some p => mret p
  | None => fail
  end.

(** TariClient::reset, lines 258-266. Each statement reads m_pairedClient
    again, as the source does. *)
Definition reset (c : ptr) : M unit :=
  paired ← is_paired c;
  (if paired : bool then
     (p ← pairedClient c; modify p (set_pairedClient None));;
     (p ← pairedClient c; close p);;
     modify c (set_pairedClient None)
   else mret tt);;
  modify c (set_pairedClientSavedResetCounter UINT32_MAX).

(** Modelled from the spec: TCPServer::get_client is missing. Connection
    objects are allocated lazily and recycled through the pool, and each
    reuse starts from a clean reset state. *)
Definition get_client : M ptr :=
  s ← get;
  match m_preallocatedClients s with
  | c :: rest =>
      put (set_preallocatedClients rest s);;
      reset c;;
      mret c
  | [] =>
      let c := fresh (dom (heap s)) in
      put (set_heap (<[c := TariClient_new]> (heap s)) s);;
      mret c
  end.

(** Modelled from the spec: TCPServer::return_client is missing. The object
    goes back to the pool, and its reset epoch changes every time it is
    released. *)
Definition return_client (c : ptr) : M unit :=
  modify c (fun this =>
    set_resetCounter ((m_resetCounter this + 1) mod 2 ^ 32) this);;
  s ← get;
  put (set_preallocatedClients (c :: m_preallocatedClients s) s).

(** Modelled from the spec: TCPServer::connect_to_peer is missing. One
    attempt to establish the outbound connection; connect_upstream does not
    release the object itself after a failed attempt, and the spec has the
    object released on a connect failure, so the release is here. *)
Definition connect_to_peer (c : ptr) : M bool :=
  s ← get;
  put (set_connects (S (connects s)) s);;
  if tcp_connect (connects s) then mret true
  else return_client c;; mret false.

(** Modelled from the spec: TCPServer::send is missing. The callback fills
    the server's buffer and returns the number of bytes written; a read that
    cannot be placed into the partner's send path fails, otherwise the
    written bytes go to the partner's outbound send path. *)
Definition send (client : ptr)
    (callback : list byte -> Z -> Z * list byte) : M bool :=
  s ← get;
  let '(bytes_written, buf) :=
    callback (m_callbackBuf s) (Z.of_nat (length (m_callbackBuf s))) in
  put (set_callbackBuf buf s);;
  if bytes_written =? 0 then mret false
  else
    modify client (fun c =>
      set_sent (m_sent c ++ take (Z.to_nat bytes_written) buf) c);;
    mret true.

(** memcpy(buf, data, size) *)
Definition memcpy (buf data : list byte) (size : Z) : list byte :=
  take (Z.to_nat size) data ++ drop (Z.to_nat size) buf.

(** The lambda of on_read, lines 294-302. *)
Definition on_read_callback (data : list byte) (size : Z)
    (buf : list byte) (buf_size : Z) : Z * list byte :=
  if size >? buf_size then (0, buf)
  else (size, memcpy buf data size).

(** TariClient::on_read, lines 282-303. *)
Definition on_read (c : ptr) (data : list byte) (size : Z) : M bool :=
  this ← load c;
  if negb (m_owner this) then mret false
  else
    paired ← is_paired c;
    if negb paired then mret false
    else
      p ← pairedClient c;
      send p (on_read_callback data size).

(** TariServer::connect_upstream, lines 203-239. *)
Definition connect_upstream (downstream : ptr) : M bool :=
  s ← get;
  let is_v6 := m_TariNodeIsV6 s in
  let ip := m_TariNodeHost s in
  let port := m_TariNodePort s in
  upstream ← get_client;
  modify upstream (set_owner true);;
  modify upstream (set_port port);;
  modify upstream (set_isV6 is_v6);;
  match str_to_ip is_v6 ip with
  | None =>
      return_client upstream;;
      mret false
  | Some addr =>
      modify upstream (set_addr addr);;
      modify upstream (set_addrString (format_addr is_v6 ip port));;
      ok ← connect_to_peer upstream;
      if negb ok then mret false
      else
        modify upstream (set_pairedClient (Some downstream));;
        d ← load downstream;
        modify upstream
          (set_pairedClientSavedResetCounter (m_resetCounter d));;
        modify downstream (set_pairedClient (Some upstream));;
        u ← load upstream;
        modify downstream
          (set_pairedClientSavedResetCounter (m_resetCounter u));;
        mret true
  end.

(** TariClient::on_connect, lines 268-280. *)
Definition on_connect (c : ptr) : M bool :=
  this ← load c;
  if negb (m_owner this) then mret false
  else if m_isIncoming this then connect_upstream c
  else mret true.

(** Modelled from the spec: TCPServer::start_listening is missing. One bind
    attempt on the given address and port; a successful bind makes the port
    the listen port. [i] counts the attempts. *)
Definition start_listening (i : nat) (is_v6 : bool) (ip : string) (port : Z)
    (s : TariServer) : bool * TariServer :=
  let s := set_binds (binds s ++ [mkEndpoint is_v6 ip port]) s in
  if tcp_bind i is_v6 ip port then (true, set_listenPort port s) else (false, s).

(** 49152 + (rd() % 16384), rd() an unsigned 32-bit value *)
Definition random_port (i : nat) : Z :=
  49152 + ((rd i mod 2 ^ 32) mod 16384).

(** The loop of TariServer::start, lines 182-186; [n] iterations are left
    and [i] is the loop counter. *)
Fixpoint start_loop (n i : nat) (s : TariServer) : TariServer :=
  match n with
  | O => s
  | S n' =>
      let '(ok, s') :=
        start_listening i false "127.0.0.1"%string (random_port i) s in
      if ok then s' else start_loop n' (S i) s'
  end.

(** TariServer::start, lines 178-201. *)
Definition start (s : TariServer) : bool * TariServer :=
  let s := start_loop 10 0 s in
  if m_listenPort s <? 0 then (false, s)
  else if negb (uv_thread_create =? 0) then (false, s)
  else (true, set_loopThreadCreated true s).

(** Modelled from the spec: external_listen_port is missing; it returns the
    bound port. *)
Definition external_listen_port (s : TariServer) : Z := m_listenPort s.


(** The pointer stored in a connection, if the connection exists. *)
Definition partner_of (s : TariServer) (c : ptr) : option ptr :=
  match heap s !! c with
  | Some this => m_pairedClient this
  | None => None
  end.

(** The fields outside the heap are those of [s]. *)
Definition heap_only (s s' : TariServer) : Prop := s' = set_heap (heap s') s.

(** Objects are never removed from the heap. *)
Definition keeps_objects (s s' : TariServer) : Prop :=
  forall t, is_Some (heap s !! t) -> is_Some (heap s' !! t).

(** The pool holds connection objects whose partner pointer, if any, names
    another connection object. *)
Definition pool_valid (s : TariServer) : Prop :=
  forall c, c ∈ m_preallocatedClients s ->
    exists this, heap s !! c = Some this /\
      forall p, m_pairedClient this = Some p ->
        p <> c /\ is_Some (heap s !! p).

(** TariServer::TariServer, lines 168-176. [BUF_SIZE] is a constant of the
    header; the listen port of the base class is negative until a bind
    succeeds (the test of line 188), and the pool and the heap start empty. *)
Definition TariServer_new (BUF_SIZE : nat) : TariServer :=
  mkTariServer false EmptyString 0 (-1) false (replicate BUF_SIZE x00) [] ∅ 0 [].

End WithTransport.

(** A transport for concrete runs: every address translates, the connect
    attempts have the given outcomes, the random device gives the given
    draws, and the host has the IPv4 loopback interface only, on which the
    bind attempts have the given outcomes. *)
Definition scripted_transport (connect_ok : nat -> bool) (draw : nat -> Z)
    (bind_ok : nat -> Z -> bool) (thread_err : Z) : Transport :=
  {| raw_ip := string;
     raw_ip_default := EmptyString;
     str_to_ip := fun _ ip => if HostString.empty ip then None else Some ip;
     format_addr := fun _ ip _ => ip;
     tcp_connect := connect_ok;
     rd := draw;
     tcp_bind := fun i is_v6 ip port =>
       negb is_v6 && String.eqb ip "127.0.0.1" && bind_ok i port;
     uv_thread_create := thread_err |}.

End Proxy.

(* ===================================================================== *)
Module Client.

(** The types of common.h that the chain parameters are made of; only their
    emptiness tests are used by this file. *)
Class AuxTypes := {
  difficulty_type : Type;
  (** difficulty_type::empty() *)
  diff_empty : difficulty_type -> bool;
  (** hash::empty(), on the bytes of the hash *)
  bytes_empty : list byte -> bool
}.

(** Modelled from the spec: HASH_SIZE is a constant of common.h; the chain
    identifier is a fixed 32-byte value. *)
Definition HASH_SIZE : nat := 32.

(** The algorithm identifiers of the node's interface; the job uses
    POW_ALGOS_RANDOMX. *)
Inductive PowAlgos := POW_ALGOS_RANDOMX | POW_ALGOS_other (id : Z).

Record NewBlockTemplateRequest := mkRequest {
  algo : PowAlgos;
  max_weight : Z
}.

(** The stub m_TariNode: each call gives a status and a response, of which
    the job reads new_block_template() and tari_unique_id(). *)
Record BaseNode (Status NewBlockTemplate : Type) := mkBaseNode {
  GetNewBlockTemplate : NewBlockTemplateRequest -> Status * NewBlockTemplate;
  GetNewBlock : NewBlockTemplate -> Status * list byte
}.
Arguments GetNewBlockTemplate {Status NewBlockTemplate} _ _.
Arguments GetNewBlock {Status NewBlockTemplate} _ _.

(** What the job does that is visible outside it. *)
Inductive job_event :=
| LogInfo_chain_id (id : list byte)
| WriteLocked_store_aux_id (id : list byte)
| LogErr_invalid_size (size : nat).

Section WithTypes.
Context `{AuxTypes} `{Proxy.Transport}.

(** hash: uint8_t h[HASH_SIZE] *)
Record hash := mkHash { h : list byte }.

Definition hash_empty (x : hash) : bool := bytes_empty (h x).

(** Modelled from the spec: ChainParameters is declared in
    merge_mining_client.h; the spec gives it the two fields below. *)
Record ChainParameters := mkChainParameters {
  aux_id : hash;
  aux_diff : difficulty_type
}.

(** The members of MergeMiningClientTari. *)
Record MergeMiningClientTari := mkClient {
  m_chainParams : ChainParameters;
  m_auxWallet : string;
  m_hostStr : string;
  m_server : Proxy.TariServer
}.

Definition set_chainParams (p : ChainParameters) (c : MergeMiningClientTari)
  : MergeMiningClientTari :=
  mkClient p (m_auxWallet c) (m_hostStr c) (m_server c).

(** MergeMiningClientTari::get_params, lines 93-103, inside the read lock:
    the result and the value of out_params after the call. *)
Definition get_params (c : MergeMiningClientTari) (out_params : ChainParameters)
  : bool * ChainParameters :=
  if hash_empty (aux_id (m_chainParams c))
     || diff_empty (aux_diff (m_chainParams c))
  then (false, out_params)
  else (true, m_chainParams c).

(** MergeMiningClientTari::submit_solution, lines 105-109: the client after
    the call. *)
Definition submit_solution (blob : list byte) (merkle_proof : list hash)
    (c : MergeMiningClientTari) : MergeMiningClientTari :=
  let _ := blob in
  let _ := merkle_proof in
  c.

(** ** The chain-id fetch job, lines 124-157 *)

(** std::copy(first, last, out) into an array: the elements from position 0
    are overwritten. *)
Definition std_copy (src dst : list byte) : list byte :=
  src ++ drop (length src) dst.

Definition store_aux_id (id : list byte) (p : ChainParameters)
  : ChainParameters :=
  mkChainParameters (mkHash (std_copy id (h (aux_id p)))) (aux_diff p).

Definition merge_mining_get_chain_id_job {Status NewBlockTemplate}
    (m_TariNode : BaseNode Status NewBlockTemplate)
    (client : MergeMiningClientTari)
  : MergeMiningClientTari * list job_event :=
  let request := mkRequest POW_ALGOS_RANDOMX 1 in
  let '(status, response) := GetNewBlockTemplate m_TariNode request in
  let '(status, id) := GetNewBlock m_TariNode response in
  if bool_decide (length id = HASH_SIZE) then
    (set_chainParams (store_aux_id id (m_chainParams client)) client,
     [LogInfo_chain_id id; WriteLocked_store_aux_id id])
  else
    (client, [LogInfo_chain_id id; LogErr_invalid_size (length id)]).

(** ** The reader/writer lock around m_chainParams

    Threads are interleaved at the granularity of single member accesses.
    A reader runs get_params; a writer stores to m_chainParams inside a
    WriteLock, as the fetch job does. *)

Inductive reader_pc :=
| RStart                 (* before ReadLock lock(m_lock) *)
| RCheckId               (* m_chainParams.aux_id.empty() *)
| RCheckDiff             (* m_chainParams.aux_diff.empty() *)
| RCopyId                (* out_params.aux_id = m_chainParams.aux_id *)
| RCopyDiff              (* out_params.aux_diff = m_chainParams.aux_diff *)
| RUnlock (r : bool)     (* return r: the lock goes out of scope *)
| RReturned (r : bool).

(** [r_out0] and [r_seen] are ghost: out_params before the call, and
    m_chainParams at the moment the read lock was taken. *)
Record reader := mkReader {
  r_pc : reader_pc;
  r_out : ChainParameters;
  r_out0 : ChainParameters;
  r_seen : ChainParameters
}.

(** One access of get_params made while the read lock is held. *)
Definition reader_access (m : ChainParameters) (r : reader) : option reader :=
  match r_pc r with
  | RCheckId =>
      Some (mkReader (if hash_empty (aux_id m) then RUnlock false
                      else RCheckDiff)
              (r_out r) (r_out0 r) (r_seen r))
  | RCheckDiff =>
      Some (mkReader (if diff_empty (aux_diff m) then RUnlock false
                      else RCopyId)
              (r_out r) (r_out0 r) (r_seen r))
  | RCopyId =>
      Some (mkReader RCopyDiff
              (mkChainParameters (aux_id m) (aux_diff (r_out r)))
              (r_out0 r) (r_seen r))
  | RCopyDiff =>
      Some (mkReader (RUnlock true)
              (mkChainParameters (aux_id (r_out r)) (aux_diff m))
              (r_out0 r) (r_seen r))
  | _ => None
  end.

(** The shared parameters, the lock (the threads holding it shared, the
    thread holding it exclusively) and the state of each reader thread. *)
Record sys := mkSys {
  shared : ChainParameters;
  rlock : gset nat;
  wlock : option nat;
  readers : gmap nat reader
}.

Inductive step : sys -> sys -> Prop :=
| step_read_lock m rl rs i out :
    rs !! i = Some (mkReader RStart out out out) ->
    step (mkSys m rl None rs)
         (mkSys m ({[i]} ∪ rl) None (<[i := mkReader RCheckId out out m]> rs))
| step_read_access m rl wl rs i r r' :
    rs !! i = Some r ->
    reader_access m r = Some r' ->
    step (mkSys m rl wl rs) (mkSys m rl wl (<[i := r']> rs))
| step_read_unlock m rl wl rs i b out out0 seen :
    rs !! i = Some (mkReader (RUnlock b) out out0 seen) ->
    step (mkSys m rl wl rs)
         (mkSys m (rl ∖ {[i]}) wl
            (<[i := mkReader (RReturned b) out out0 seen]> rs))
| step_write_lock m rs j :
    step (mkSys m ∅ None rs) (mkSys m ∅ (Some j) rs)
| step_write m m' rl rs j :
    step (mkSys m rl (Some j) rs) (mkSys m' rl (Some j) rs)
| step_write_unlock m rl rs j :
    step (mkSys m rl (Some j) rs) (mkSys m rl None rs).

(** Every reader is about to call get_params and nobody holds the lock. *)
Definition initial (s : sys) : Prop :=
  rlock s = ∅ /\ wlock s = None /\
  forall i r, readers s !! i = Some r ->
    r_pc r = RStart /\ r_out0 r = r_out r /\ r_seen r = r_out r.

Definition reachable (s : sys) : Prop :=
  exists s0, initial s0 /\ rtc step s0 s.

(** The accesses of get_params made between taking and releasing the read
    lock. *)
Definition holds_read_lock (pc : reader_pc) : bool :=
  match pc with
  | RCheckId | RCheckDiff | RCopyId | RCopyDiff | RUnlock _ => true
  | RStart | RReturned _ => false
  end.

(** The result [b] with out_params [r_out r] is what get_params computes on
    a client whose parameters are the ones seen under the lock. *)
Definition result_of (r : reader) (b : bool) : Prop :=
  forall c : MergeMiningClientTari,
    m_chainParams c = r_seen r -> get_params c (r_out0 r) = (b, r_out r).

Definition reader_ok (m : ChainParameters) (rl : gset nat) (i : nat)
    (r : reader) : Prop :=
  (holds_read_lock (r_pc r) = true -> i ∈ rl /\ r_seen r = m) /\
  match r_pc r with
  | RStart => True
  | RCheckId => r_out r = r_out0 r
  | RCheckDiff => r_out r = r_out0 r /\ hash_empty (aux_id m) = false
  | RCopyId =>
      hash_empty (aux_id m) = false /\ diff_empty (aux_diff m) = false
  | RCopyDiff =>
      hash_empty (aux_id m) = false /\ diff_empty (aux_diff m) = false /\
      aux_id (r_out r) = aux_id m
  | RUnlock b => result_of r b
  | RReturned b => result_of r b
  end.

Definition lock_inv (s : sys) : Prop :=
  (wlock s <> None -> rlock s = ∅) /\
  forall i r, readers s !! i = Some r -> reader_ok (shared s) (rlock s) i r.

End WithTypes.
End Client.

(* ===================================================================== *)
Module Construction.
Import Proxy Client.

Section WithParams.
Context `{AuxTypes} `{Transport}.

Definition set_TariNode (is_v6 : bool) (host : string) (port : Z)
    (s : TariServer) : TariServer :=
  mkTariServer is_v6 host port
    (m_listenPort s) (m_loopThreadCreated s) (m_callbackBuf s)
    (m_preallocatedClients s) (heap s) (connects s) (binds s).

(** A candidate handed to the callback of parse_address_list:
    (is_v6, address, ip, port). *)
Record candidate := mkCandidate {
  c_is_v6 : bool;
  c_address : string;
  c_ip : string;
  c_port : Z
}.

(** The lambda of lines 54-61. [m_dns] is m_pool->params().m_dns and
    [resolve_host] is the resolver of the pool, which rewrites its two
    arguments when it succeeds; it is not called when [m_dns] is off. *)
Definition address_callback (m_dns : bool)
    (resolve_host : string -> bool -> option (string * bool))
    (cand : candidate) (s : TariServer) : TariServer :=
  if negb m_dns then set_TariNode (c_is_v6 cand) (c_ip cand) (c_port cand) s
  else
    match resolve_host (c_ip cand) (c_is_v6 cand) with
    | Some (ip, is_v6) => set_TariNode is_v6 ip (c_port cand) s
    | None => s
    end.

(** Modelled from the spec: TCPServer::parse_address_list is missing. The
    remainder of the host string gives candidate tuples ([parse], a
    parameter), and the callback is called on each of them in order. *)
Definition parse_address_list (parse : string -> list candidate)
    (host : string) (callback : candidate -> TariServer -> TariServer)
    (s : TariServer) : TariServer :=
  fold_left (fun s cand => callback cand s) (parse host) s.

(** m_chainParams{}: value-initialised; [zero_diff] is the value-initialised
    difficulty. *)
Definition ChainParameters_zero (zero_diff : difficulty_type) : ChainParameters :=
  mkChainParameters (mkHash (replicate HASH_SIZE x00)) zero_diff.

(** What waits on the work queue of the loop. *)
Inductive work := Work_get_chain_id.

(** MergeMiningClientTari::merge_mining_get_chain_id, lines 111-163: the job
    of lines 124-157 is put on the work queue; the result of uv_queue_work is
    not looked at. *)
Definition merge_mining_get_chain_id (queue : list work) : list work :=
  queue ++ [Work_get_chain_id].

(** MergeMiningClientTari::MergeMiningClientTari, lines 30-81. The outcome is
    the client as the constructing thread has written it, with the work
    queue after line 80. The lock initialisation and the creation of the
    stub do not show in the client's state. From line 70 on the loop thread
    runs, and from line 80 on the queued job may run on a worker thread,
    also before the constructor returns: [concurrently] below gives what
    they do to the client. After line 70 the constructing thread writes
    neither the server nor the parameters, so the client at the return is
    this outcome followed by steps of [concurrently]. *)
Definition MergeMiningClientTari_new (TARI_PREFIX : string) (m_dns : bool)
    (resolve_host : string -> bool -> option (string * bool))
    (parse : string -> list candidate) (BUF_SIZE : nat)
    (zero_diff : difficulty_type) (host wallet : string)
  : outcome (MergeMiningClientTari * list work) :=
  let m_server := TariServer_new BUF_SIZE in
  match HostString.normalize_host TARI_PREFIX host with
  | Throws => Throws
  | Undefined => Undefined
  | Returns remainder =>
      let m_server :=
        parse_address_list parse remainder
          (address_callback m_dns resolve_host) m_server in
      if HostString.empty (m_TariNodeHost m_server)
         || (m_TariNodePort m_server =? 0)
         || (m_TariNodePort m_server >=? 65536)
      then Throws
      else
        let '(ok, m_server) := start m_server in
        if negb ok then Throws
        else Returns (mkClient (ChainParameters_zero zero_diff) wallet host
                        m_server,
                      merge_mining_get_chain_id [])
  end.

Definition set_server (s : TariServer) (c : MergeMiningClientTari)
  : MergeMiningClientTari :=
  mkClient (m_chainParams c) (m_auxWallet c) (m_hostStr c) s.

(** What the loop thread runs on the server: the handlers of this file and
    the pool operations they rest on, on any connection and with any
    payload. *)
Inductive loop_call :=
| Call_accept
| Call_on_connect (c : ptr)
| Call_on_read (c : ptr) (data : list byte) (size : Z)
| Call_reset (c : ptr)
| Call_close (c : ptr)
| Call_get_client
| Call_return_client (c : ptr)
| Call_connect_upstream (downstream : ptr).

(** Modelled from the spec: the accept path of TCPServer is missing. An
    inbound connection gets an object from the pool, marked as incoming and
    owned by the server. *)
Definition accept : M ptr :=
  c ← get_client;
  modify c (fun x =>
    mkTariClient true true (m_isV6 x) (m_port x) (m_addr x) (m_addrString x)
      (m_resetCounter x) (m_isClosing x) (m_sent x) (m_pairedClient x)
      (m_pairedClientSavedResetCounter x));;
  mret c.

Definition run_call (call : loop_call) : M unit :=
  match call with
  | Call_accept => accept;; mret tt
  | Call_on_connect c => on_connect c;; mret tt
  | Call_on_read c data size => on_read c data size;; mret tt
  | Call_reset c => reset c
  | Call_close c => close c
  | Call_get_client => get_client;; mret tt
  | Call_return_client c => return_client c
  | Call_connect_upstream d => connect_upstream d;; mret tt
  end.

(** One step of another thread on the client and the work queue: a worker
    thread takes the fetch job from the queue and runs it against the node,
    or the loop thread completes a call on the server. *)
Inductive concurrently {Status NewBlockTemplate : Type}
  : MergeMiningClientTari * list work ->
    MergeMiningClientTari * list work -> Prop :=
| job_runs (node : BaseNode Status NewBlockTemplate) client queue :
    concurrently (client, Work_get_chain_id :: queue)
      ((merge_mining_get_chain_id_job node client).1, queue)
| loop_runs call client queue s' :
    run_call call (m_server client) = Some (tt, s') ->
    concurrently (client, queue) (set_server s' client, queue).

(** The settings of the server: what the constructor and start() write. *)
Definition settings (s : TariServer)
  : bool * string * Z * Z * bool * list endpoint :=
  (m_TariNodeIsV6 s, m_TariNodeHost s, m_TariNodePort s, m_listenPort s,
   m_loopThreadCreated s, binds s).

(** The statements of lines 232-238. *)
Definition link_pair (downstream upstream : ptr) : M bool :=
  modify upstream (set_pairedClient (Some downstream));;
  d ← load downstream;
  modify upstream (set_pairedClientSavedResetCounter (m_resetCounter d));;
  modify downstream (set_pairedClient (Some upstream));;
  u ← load upstream;
  modify downstream (set_pairedClientSavedResetCounter (m_resetCounter u));;
  mret true.

(** A connection record with its two pairing fields blanked: what the
    pairing statements and reset leave alone. *)
Definition pairing_blanked (x : TariClient) : TariClient :=
  set_pairedClientSavedResetCounter 0 (set_pairedClient None x).


End WithParams.
End Construction.

(* ===================================================================== *)
(** * Concrete runs used as examples *)

Module Scenario.
Import Proxy.

(** Every connect and every bind succeeds; the random device always gives
    16383. *)
Definition T_ok : Transport :=
  scripted_transport (fun _ => true) (fun _ => 16383) (fun _ _ => true) 0.

(** The connect attempts fail. *)
Definition T_refused : Transport :=
  scripted_transport (fun _ => false) (fun _ => 0) (fun _ _ => true) 0.

(** No bind attempt succeeds. *)
Definition T_nobind : Transport :=
  scripted_transport (fun _ => true) (fun _ => 0) (fun _ _ => false) 0.

Section Run.
Context (T : Transport).

(** An accepted incoming connection, at address 0. *)
Definition incoming : TariClient :=
  mkTariClient true true false 0 raw_ip_default EmptyString 0 false [] None
    UINT32_MAX.

(** A server with a buffer of 4 bytes, configured for the node
    10.0.0.5:9000, holding the incoming connection. *)
Definition accepted : TariServer :=
  mkTariServer false "10.0.0.5" 9000 (-1) false (replicate 4 x00) []
    {[ 0%nat := incoming ]} 0 [].

Definition run {A} (m : M A) (s : TariServer) : TariServer :=
  match m s with
  | Some (_, s') => s'
  | None => s
  end.

(** The incoming connection paired with a fresh upstream. *)
Definition paired : TariServer := run (connect_upstream 0%nat) accepted.


(** The upstream of [paired] released to the pool while the downstream
    still stores it: its reset epoch has moved on. *)
Definition stale : TariServer := run (return_client 1%nat) paired.

(** The upstream of [paired] reset, released, and taken from the pool again
    for a second incoming connection at address 2. *)
Definition recycled : TariServer :=
  run (reset 1%nat;; return_client 1%nat;;
       s ← get;
       put (set_heap (<[2%nat := incoming]> (heap s)) s);;
       connect_upstream 2%nat) paired.


End Run.

Import Client.

(** Modelled from the spec: the emptiness tests of common.h are missing. A
    chain identifier is empty while it is zero-filled, and the difficulty is
    an opaque byte sequence, empty while it has no bytes. *)
Definition spec_types : AuxTypes :=
  {| difficulty_type := list byte;
     diff_empty := fun d => match d with [] => true | _ => false end;
     bytes_empty := forallb (fun b => Byte.eqb b x00) |}.

Section Params.
#[local] Existing Instance spec_types.
#[local] Existing Instance T_ok.

(** m_chainParams{} of the constructor. *)
Definition params_unset : ChainParameters :=
  mkChainParameters (mkHash (replicate 32 x00)) [].

Definition params_set : ChainParameters :=
  mkChainParameters (mkHash (replicate 32 x2a)) [x01; x00].

Definition client_unset : MergeMiningClientTari :=
  mkClient params_unset "wallet" "tari://10.0.0.5:9000" (TariServer_new 4).

(** A node whose two calls carry the given statuses and which answers with
    the given identifier. *)
Definition node (status1 status2 : bool) (id : list byte) : BaseNode bool unit :=
  mkBaseNode bool unit (fun _ => (status1, tt)) (fun _ => (status2, id)).

(** One reader, about to call get_params while the parameters are set. *)
Definition before_read : sys :=
  mkSys params_set ∅ None
    {[ 0%nat := mkReader RStart params_unset params_unset params_unset ]}.

(** The same reader after its call. *)
Definition after_read : sys :=
  mkSys params_set ∅ None
    {[ 0%nat := mkReader (RReturned true) params_set params_unset params_set ]}.

(** A client whose difficulty is set and whose identifier is not. *)
Definition client_waiting : MergeMiningClientTari :=
  mkClient (mkChainParameters (mkHash (replicate 32 x00)) [x01; x00])
    "wallet" "tari://10.0.0.5:9000" (TariServer_new 4).

(** A parser that gives one candidate, the remainder taken as an ip with
    port 9000. *)
Definition parse_one (remainder : string) : list Construction.candidate :=
  [Construction.mkCandidate false remainder remainder 9000].

(** The constructor on tari://10.0.0.5/, without resolution. *)
Definition constructed
  : outcome (MergeMiningClientTari * list Construction.work) :=
  Construction.MergeMiningClientTari_new "tari://" false (fun _ _ => None)
    parse_one 4 [] "tari://10.0.0.5/" "wallet".

Definition constructed_client : MergeMiningClientTari :=
  match constructed with
  | Returns (c, _) => c
  | _ => client_unset
  end.

End Params.
End Scenario.

(* ===================================================================== *)
(** * The host string *)

Section HostStringFacts.
Import HostString.
Local Open Scope string_scope.

Lemma prefix_app (p x : string) : String.prefix p (p ++ x) = true.
Proof.
  induction p as [|c p IH]; simpl.
  - destruct x; reflexivity.
  - destruct (ascii_dec c c); [exact IH | congruence].
Qed.

Lemma find_own_prefix (p x : string) : find (p ++ x) p = Some 0%nat.
Proof.
  pose proof (prefix_app p x) as Hp. unfold find.
  destruct (p ++ x); unfold find_at; rewrite Hp; reflexivity.
Qed.

Lemma erase_front_app (p x : string) :
  erase_front (String.length p) (p ++ x) = x.
Proof. induction p as [|c p IH]; simpl; [reflexivity | exact IH]. Qed.

Lemma back_snoc (s : string) (c : ascii) : back (s ++ String c EmptyString) = Some c.
Proof.
  induction s as [|d s IH]; [reflexivity|].
  simpl. rewrite IH. destruct (s ++ String c EmptyString); [discriminate | reflexivity].
Qed.

Lemma pop_back_snoc (s : string) (c : ascii) : pop_back (s ++ String c EmptyString) = s.
Proof.
  induction s as [|d s IH]; [reflexivity|].
  simpl. rewrite IH. destruct s; reflexivity.
Qed.

Lemma slashes_snoc n : slashes (S n) = slashes n ++ "/".
Proof.
  induction n as [|n IH]; [reflexivity|].
  change (slashes (S (S n))) with (String "/"%char (slashes (S n))).
  rewrite IH at 1. reflexivity.
Qed.

(** The loop, unfolded once. *)
Lemma strip_trailing_unfold (host : string) :
  strip_trailing host =
  match back host with
  | None => Undefined
  | Some c => if Ascii.eqb c "/"%char then strip_trailing (pop_back host)
              else Returns host
  end.
Proof.
  funelim (strip_trailing host).
  - rewrite Hb. reflexivity.
  - match goal with E : back host = None |- _ => rewrite E end. reflexivity.
Qed.

(** A trailing '/' is removed and the loop goes on. *)
Lemma strip_trailing_slash (s : string) :
  strip_trailing (s ++ "/") = strip_trailing s.
Proof.
  rewrite strip_trailing_unfold, back_snoc, pop_back_snoc. reflexivity.
Qed.

(** Any other last character ends the loop. *)
Lemma strip_trailing_other (s : string) (c : ascii) :
  c <> "/"%char -> strip_trailing (s ++ String c EmptyString) = Returns (s ++ String c EmptyString).
Proof.
  intros Hc. rewrite strip_trailing_unfold, back_snoc.
  destruct (Ascii.eqb_spec c "/"%char); [contradiction | reflexivity].
Qed.

(** On the empty string the loop evaluates back() outside its
    precondition. *)
Lemma strip_trailing_empty : strip_trailing EmptyString = Undefined.
Proof. reflexivity. Qed.

Lemma strip_trailing_slashes n : strip_trailing (slashes n) = Undefined.
Proof.
  induction n as [|n IH]; [reflexivity|].
  rewrite slashes_snoc, strip_trailing_slash. exact IH.
Qed.

Lemma append_assoc (a b c : string) : (a ++ b) ++ c = a ++ (b ++ c).
Proof.
  induction a as [|x a IH]; [reflexivity|].
  change (String x ((a ++ b) ++ c) = String x (a ++ (b ++ c))).
  rewrite IH. reflexivity.
Qed.

Lemma append_empty_r (a : string) : a ++ EmptyString = a.
Proof.
  induction a as [|x a IH]; [reflexivity|].
  change (String x (a ++ EmptyString) = String x a).
  rewrite IH. reflexivity.
Qed.

Lemma strip_trailing_slashes_after (r : string) (c : ascii) (n : nat) :
  c <> "/"%char ->
  strip_trailing ((r ++ String c EmptyString) ++ slashes n)
  = Returns (r ++ String c EmptyString).
Proof.
  intros Hc. induction n as [|n IH].
  - cbn [slashes]. rewrite append_empty_r. apply strip_trailing_other, Hc.
  - rewrite slashes_snoc, <- append_assoc, strip_trailing_slash. exact IH.
Qed.

Lemma empty_snoc (r : string) (c : ascii) : empty (r ++ String c EmptyString) = false.
Proof. destruct r; reflexivity. Qed.

(** Apart from the empty remainder the prelude does what the spec says: a
    host without the prefix at its front is rejected, and a remainder that
    ends, before its trailing '/' characters, in another character is
    returned without them. *)
Lemma normalize_host_strips (TARI_PREFIX r : string) (c : ascii) (n : nat) :
  c <> "/"%char ->
  normalize_host TARI_PREFIX
    (TARI_PREFIX ++ (r ++ String c EmptyString) ++ slashes n)
  = Returns (r ++ String c EmptyString).
Proof.
  intros Hc. unfold normalize_host.
  rewrite find_own_prefix, erase_front_app, strip_trailing_slashes_after by exact Hc.
  rewrite bool_decide_true by reflexivity. cbn [negb].
  rewrite empty_snoc. reflexivity.
Qed.

Lemma normalize_host_no_prefix (TARI_PREFIX host : string) :
  find host TARI_PREFIX <> Some 0%nat ->
  normalize_host TARI_PREFIX host = Throws.
Proof.
  intros Hf. unfold normalize_host.
  rewrite bool_decide_false by exact Hf. reflexivity.
Qed.

(** C9 (evaluation of the code at the inputs of the claim). For every
    prefix and every host made of the prefix followed only by '/'
    characters, possibly none, the constructor does not reach its
    rejection: the stripping loop calls back() on the empty string, a read
    before the front of the buffer. *)
Theorem normalize_host_empty_remainder_undefined (TARI_PREFIX : string) (n : nat) :
  normalize_host TARI_PREFIX (TARI_PREFIX ++ slashes n) = Undefined.
Proof.
  unfold normalize_host.
  rewrite find_own_prefix, erase_front_app, strip_trailing_slashes.
  rewrite bool_decide_true by reflexivity. reflexivity.
Qed.

(** The same at the host of the spec's example, with the prefix of the
    header. *)
Lemma normalize_host_scheme_only :
  normalize_host "tari://" "tari://" = Undefined /\
  normalize_host "tari://" "tari:////" = Undefined.
Proof. split; reflexivity. Qed.

(** Hosts with a remainder that does not consist of '/' only are handled as
    the spec describes. *)
Lemma normalize_host_examples :
  normalize_host "tari://" "tari://10.0.0.5:9000///" = Returns "10.0.0.5:9000" /\
  normalize_host "tari://" "tari://10.0.0.5:9000" = Returns "10.0.0.5:9000" /\
  normalize_host "tari://" "10.0.0.5:9000" = Throws.
Proof. repeat split; reflexivity. Qed.

(** ** The prelude on every host *)

Lemma prefix_split (p s : string) :
  String.prefix p s = true -> exists rest, s = p ++ rest.
Proof.
  revert s. induction p as [|c p IH]; intros s Hp.
  - exists s. reflexivity.
  - destruct s as [|d s]; [discriminate|]. cbn in Hp.
    destruct (ascii_dec c d) as [->|]; [|discriminate].
    destruct (IH s Hp) as [rest ->]. exists rest. reflexivity.
Qed.

Lemma find_at_ge (pat s : string) (pos j : nat) :
  find_at pat s pos = Some j -> (pos <= j)%nat.
Proof.
  revert pos. induction s as [|c s IH]; intros pos; cbn [find_at].
  - destruct (String.prefix pat EmptyString); [intros [= <-]; lia | discriminate].
  - destruct (String.prefix pat (String c s)); [intros [= <-]; lia|].
    intros Hf. apply IH in Hf. lia.
Qed.

(** find(...) == 0 says that the host starts with the pattern. *)
Lemma find_zero_iff (s pat : string) :
  find s pat = Some 0%nat <-> exists rest, s = pat ++ rest.
Proof.
  split.
  - unfold find. intros Hf. apply prefix_split.
    destruct s as [|c s]; cbn [find_at] in Hf.
    + destruct (String.prefix pat EmptyString); [reflexivity | discriminate].
    + destruct (String.prefix pat (String c s)); [reflexivity|].
      apply find_at_ge in Hf. lia.
  - intros [rest ->]. apply find_own_prefix.
Qed.

Lemma back_pop_back (x : string) (c : ascii) :
  back x = Some c -> x = pop_back x ++ String c EmptyString.
Proof.
  induction x as [|d x IH]; [discriminate|].
  destruct x as [|e x].
  - intros [= ->]. reflexivity.
  - intros Hb.
    change (String d (String e x)
            = String d (pop_back (String e x) ++ String c EmptyString)).
    f_equal. apply IH. exact Hb.
Qed.

(** What the loop returns is the host without its trailing '/' characters,
    and it ends in another character. *)
Lemma strip_trailing_Returns (x r : string) :
  strip_trailing x = Returns r ->
  exists n c, x = r ++ slashes n /\ back r = Some c /\ c <> "/"%char.
Proof.
  remember (String.length x) as len eqn:Hlen.
  revert x r Hlen. induction len as [len IH] using lt_wf_ind.
  intros x r -> Hs. rewrite strip_trailing_unfold in Hs.
  destruct (back x) as [c|] eqn:Hb; [|discriminate].
  destruct (Ascii.eqb_spec c "/"%char) as [->|Hc].
  - assert (Hx : x <> EmptyString) by (intros ->; discriminate).
    destruct (IH _ (pop_back_length x Hx) (pop_back x) r eq_refl Hs)
      as (n & c & Hpop & Hr & Hc).
    exists (S n), c. split; [|auto].
    rewrite (back_pop_back x _ Hb), Hpop, slashes_snoc, append_assoc.
    reflexivity.
  - injection Hs as <-. exists 0%nat, c. cbn [slashes].
    rewrite append_empty_r. auto.
Qed.

(** The loop does not throw. *)
Lemma strip_trailing_not_Throws (x : string) : strip_trailing x <> Throws.
Proof.
  remember (String.length x) as len eqn:Hlen.
  revert x Hlen. induction len as [len IH] using lt_wf_ind.
  intros x ->. rewrite strip_trailing_unfold.
  destruct (back x) as [c|] eqn:Hb; [|discriminate].
  destruct (Ascii.eqb c "/"%char); [|discriminate].
  apply (IH _ (pop_back_length x ltac:(intros ->; discriminate)) _ eq_refl).
Qed.

(** X1. The prelude of the constructor returns [r] exactly for the hosts made
    of the prefix, then [r], then any number of '/' characters, where [r]
    ends in a character other than '/'; [r] is what is handed to
    parse_address_list. *)
Theorem normalize_host_returns_iff (TARI_PREFIX host r : string) :
  normalize_host TARI_PREFIX host = Returns r <->
  exists n c,
    host = TARI_PREFIX ++ r ++ slashes n /\ back r = Some c /\ c <> "/"%char.
Proof.
  split.
  - unfold normalize_host. intros Hn.
    case_bool_decide as Hf; cbn [negb] in Hn; [|discriminate].
    apply find_zero_iff in Hf as [rest ->].
    rewrite erase_front_app in Hn.
    destruct (strip_trailing rest) as [r'| |] eqn:Hs; try discriminate.
    destruct (empty r'); [discriminate|]. injection Hn as ->.
    apply strip_trailing_Returns in Hs as (n & c & -> & Hb & Hc).
    exists n, c. auto.
  - intros (n & c & -> & Hb & Hc).
    rewrite (back_pop_back r c Hb).
    apply normalize_host_strips. exact Hc.
Qed.

(** X2. Trailing '/' characters do not matter: a host that starts with the
    prefix and the same host followed by more '/' characters give the same
    outcome, be it a returned remainder or the undefined read. *)
Theorem normalize_host_trailing_slashes (TARI_PREFIX x : string) (n : nat) :
  normalize_host TARI_PREFIX (TARI_PREFIX ++ x ++ slashes n)
  = normalize_host TARI_PREFIX (TARI_PREFIX ++ x).
Proof.
  unfold normalize_host.
  rewrite !find_own_prefix, !erase_front_app.
  replace (strip_trailing (x ++ slashes n)) with (strip_trailing x);
    [reflexivity|].
  induction n as [|n IH].
  - cbn [slashes]. rewrite append_empty_r. reflexivity.
  - rewrite slashes_snoc, <- append_assoc, strip_trailing_slash. exact IH.
Qed.

Lemma back_None (x : string) : back x = None -> x = EmptyString.
Proof.
  induction x as [|d x IH]; [reflexivity|].
  cbn [back]. destruct x as [|e x]; [discriminate|].
  intros Hb. apply IH in Hb. discriminate.
Qed.

(** The loop reads before the front of the string only on a string of '/'
    characters. *)
Lemma strip_trailing_Undefined (x : string) :
  strip_trailing x = Undefined -> exists n, x = slashes n.
Proof.
  remember (String.length x) as len eqn:Hlen.
  revert x Hlen. induction len as [len IH] using lt_wf_ind.
  intros x -> Hs. rewrite strip_trailing_unfold in Hs.
  destruct (back x) as [c|] eqn:Hb.
  - destruct (Ascii.eqb_spec c "/"%char) as [->|Hc]; [|discriminate].
    assert (Hx : x <> EmptyString) by (intros ->; discriminate).
    destruct (IH _ (pop_back_length x Hx) (pop_back x) eq_refl Hs) as [n Hpop].
    exists (S n). rewrite (back_pop_back x _ Hb), Hpop, slashes_snoc.
    reflexivity.
  - exists 0%nat. apply back_None. exact Hb.
Qed.

(** X3. The read before the front of the string (back() on the empty string,
    line 44) is reached for exactly the hosts made of the prefix followed by
    '/' characters only, possibly none; a host that does not start with the
    prefix is rejected at lines 37-40, before the loop. On the hosts of the
    first kind nothing is promised of the program, the rejection of lines
    48-51 included. *)
Theorem normalize_host_undefined_iff (TARI_PREFIX host : string) :
  (normalize_host TARI_PREFIX host = Undefined <->
   exists n, host = TARI_PREFIX ++ slashes n) /\
  ((~ exists rest, host = TARI_PREFIX ++ rest) ->
   normalize_host TARI_PREFIX host = Throws).
Proof.
  split; [split|].
  - unfold normalize_host. intros Hn.
    case_bool_decide as Hf; cbn [negb] in Hn; [|discriminate].
    apply find_zero_iff in Hf as [rest ->].
    rewrite erase_front_app in Hn.
    destruct (strip_trailing rest) as [r| |] eqn:Hs.
    + destruct (empty r); discriminate.
    + discriminate.
    + apply strip_trailing_Undefined in Hs as [n ->]. eauto.
  - intros [n ->]. unfold normalize_host.
    rewrite find_own_prefix, erase_front_app, strip_trailing_slashes.
    rewrite bool_decide_true by reflexivity. reflexivity.
  - intros Hno. apply normalize_host_no_prefix.
    rewrite find_zero_iff. exact Hno.
Qed.

End HostStringFacts.

(* ===================================================================== *)
(** * The proxy: reasoning in the event-loop monad *)

Section ProxyFacts.
Import Proxy.
Context `{Transport}.

Lemma bind_Some {A B} (m : M A) (k : A -> M B) s b s'' :
  (m ≫= k) s = Some (b, s'') <->
  exists a s', m s = Some (a, s') /\ k a s' = Some (b, s'').
Proof.
  unfold mbind, M_bind. split.
  - destruct (m s) as [[a s']|]; [eauto | discriminate].
  - intros (a & s' & -> & Hk). exact Hk.
Qed.

Lemma bind_eq {A B} (m : M A) (k : A -> M B) s a s' :
  m s = Some (a, s') -> (m ≫= k) s = k a s'.
Proof. unfold mbind, M_bind. intros ->. reflexivity. Qed.

Lemma ret_Some {A} (a b : A) s s' :
  (mret a : M A) s = Some (b, s') <-> b = a /\ s' = s.
Proof. unfold mret, M_ret. split; [intros [= <- <-] | intros [-> ->]]; auto. Qed.

Lemma load_Some p s c s' :
  load p s = Some (c, s') <-> heap s !! p = Some c /\ s' = s.
Proof.
  unfold load. destruct (heap s !! p).
  - split; [intros [= <- <-] | intros [[= ->] ->]]; auto.
  - split; [discriminate | intros [[=] _]].
Qed.

Lemma modify_Some p f s u s' :
  modify p f s = Some (u, s') <->
  exists c, heap s !! p = Some c /\ s' = set_heap (<[p := f c]> (heap s)) s.
Proof.
  unfold modify. destruct (heap s !! p) as [c|].
  - split; [intros [= <-]; eauto | intros (c' & [= <-] & ->); destruct u; auto].
  - split; [discriminate | intros (c' & [=] & _)].
Qed.

Lemma modify_run p f s c :
  heap s !! p = Some c ->
  modify p f s = Some (tt, set_heap (<[p := f c]> (heap s)) s).
Proof. intros Hp. unfold modify. rewrite Hp. reflexivity. Qed.

Lemma load_run p s c : heap s !! p = Some c -> load p s = Some (c, s).
Proof. intros Hp. unfold load. rewrite Hp. reflexivity. Qed.

Lemma put_run x s : put x s = Some (tt, x).
Proof. reflexivity. Qed.

Lemma get_run s : get s = Some (s, s).
Proof. reflexivity. Qed.

Lemma get_Some s a s' : get s = Some (a, s') <-> a = s /\ s' = s.
Proof. unfold get. split; [intros [= <- <-] | intros [-> ->]]; auto. Qed.

Lemma put_Some x s u s' : put x s = Some (u, s') <-> s' = x.
Proof. unfold put. split; [intros [= <-] | intros ->; destruct u]; auto. Qed.

(** Inversion of a successful run, one operation at a time. *)
Ltac run_inv H :=
  repeat match type of H with
  | (_ ≫= _) _ = Some _ =>
      let a := fresh "a" in let s := fresh "s" in let H1 := fresh "Hrun" in
      apply bind_Some in H as (a & s & H1 & H)
  end.

Lemma pairedClient_Some c s p s' :
  pairedClient c s = Some (p, s') <->
  exists this, heap s !! c = Some this /\ m_pairedClient this = Some p /\ s' = s.
Proof.
  unfold pairedClient. split.
  - intros Hp. run_inv Hp. apply load_Some in Hrun as [Hc ->].
    destruct (m_pairedClient a) eqn:E; [|discriminate].
    apply ret_Some in Hp as [-> ->]. eauto.
  - intros (this & Hc & Ep & ->).
    rewrite (bind_eq _ _ s this s) by (apply load_Some; auto).
    rewrite Ep. reflexivity.
Qed.

Lemma pairedClient_run c s this p :
  heap s !! c = Some this -> m_pairedClient this = Some p ->
  pairedClient c s = Some (p, s).
Proof. intros. apply pairedClient_Some. eauto. Qed.

(** [is_paired] reads and does not write. *)
Lemma is_paired_state c s b s' : is_paired c s = Some (b, s') -> s' = s.
Proof.
  unfold is_paired. intros Hp. run_inv Hp.
  apply load_Some in Hrun as [_ ->].
  destruct (m_pairedClient a).
  - run_inv Hp. apply load_Some in Hrun as [_ ->].
    apply ret_Some in Hp as [_ ->]. reflexivity.
  - apply ret_Some in Hp as [_ ->]. reflexivity.
Qed.

Lemma is_paired_true c s :
  is_paired c s = Some (true, s) <->
  exists this p partner,
    heap s !! c = Some this /\ m_pairedClient this = Some p /\
    heap s !! p = Some partner /\
    m_resetCounter partner = m_pairedClientSavedResetCounter this.
Proof.
  unfold is_paired. split.
  - intros Hp. run_inv Hp. apply load_Some in Hrun as [Hc ->].
    destruct (m_pairedClient a) as [p|] eqn:Ep.
    + run_inv Hp. apply load_Some in Hrun as [Hq ->].
      apply ret_Some in Hp as [Hb _]. symmetry in Hb. apply Z.eqb_eq in Hb.
      eauto 10.
    + apply ret_Some in Hp as [[=] _].
  - intros (this & p & partner & Hc & Ep & Hq & Hcnt).
    rewrite (bind_eq _ _ s this s) by (apply load_Some; auto).
    rewrite Ep. rewrite (bind_eq _ _ s partner s) by (apply load_Some; auto).
    apply ret_Some. split; [|reflexivity]. symmetry. now apply Z.eqb_eq.
Qed.

Lemma is_paired_false c s this :
  heap s !! c = Some this ->
  (m_pairedClient this = None \/
   exists p partner, m_pairedClient this = Some p /\
     heap s !! p = Some partner /\
     m_resetCounter partner <> m_pairedClientSavedResetCounter this) ->
  is_paired c s = Some (false, s).
Proof.
  intros Hc Hcase. unfold is_paired.
  rewrite (bind_eq _ _ s this s) by (apply load_Some; auto).
  destruct Hcase as [-> | (p & partner & -> & Hq & Hne)]; [reflexivity|].
  rewrite (bind_eq _ _ s partner s) by (apply load_Some; auto).
  apply ret_Some. split; [|reflexivity]. symmetry. now apply Z.eqb_neq.
Qed.

(** A read on a connection for which is_paired is false is rejected and
    changes nothing. *)
Lemma on_read_not_paired (s : TariServer) (c : ptr) (this : TariClient)
    (data : list byte) (size : Z) :
  heap s !! c = Some this ->
  is_paired c s = Some (false, s) ->
  on_read c data size s = Some (false, s).
Proof.
  intros Hc Hp. unfold on_read.
  rewrite (bind_eq _ _ s this s) by (apply load_Some; auto).
  destruct (m_owner this); [|reflexivity]. cbn [negb].
  rewrite (bind_eq _ _ s false s) by exact Hp.
  reflexivity.
Qed.

(** C3. A read on a connection that stores no partner, or whose stored
    partner epoch differs from the partner's current reset epoch, is
    rejected: on_read returns false and the server state, with the send
    path of every connection object, is left as it was. *)
Theorem on_read_stale_or_unpaired_rejected
    (s : TariServer) (c : ptr) (this : TariClient) (data : list byte) (size : Z) :
  heap s !! c = Some this ->
  (m_pairedClient this = None \/
   exists p partner, m_pairedClient this = Some p /\
     heap s !! p = Some partner /\
     m_resetCounter partner <> m_pairedClientSavedResetCounter this) ->
  on_read c data size s = Some (false, s).
Proof.
  intros Hc Hcase.
  eapply on_read_not_paired; [exact Hc|].
  eapply is_paired_false; eauto.
Qed.

Lemma take_memcpy (buf data : list byte) (size : Z) :
  (Z.to_nat size <= length data)%nat ->
  take (Z.to_nat size) (memcpy buf data size) = take (Z.to_nat size) data.
Proof.
  intros Hle. unfold memcpy. apply take_app_length'.
  rewrite length_take. lia.
Qed.



(** ** reset *)

Lemma heap_only_trans s1 s2 s3 :
  heap_only s1 s2 -> heap_only s2 s3 -> heap_only s1 s3.
Proof. unfold heap_only. intros E1 E2. rewrite E2, E1. reflexivity. Qed.

Lemma heap_only_set_heap s h : heap_only s (set_heap h s).
Proof. reflexivity. Qed.

Lemma modify_heap_only p f s u s' :
  modify p f s = Some (u, s') -> heap_only s s'.
Proof. intros (c & _ & ->)%modify_Some. apply heap_only_set_heap. Qed.

(** What a completed call of reset did: either the connection was not
    paired and only its saved epoch was overwritten, or its partner [p],
    another connection, was unlinked and closed and its own pointer
    cleared. *)
Lemma reset_inv c s u s1 :
  reset c s = Some (u, s1) ->
  heap_only s s1 /\
  exists this, heap s !! c = Some this /\
    ((is_paired c s = Some (false, s) /\
      heap s1 = <[c := set_pairedClientSavedResetCounter UINT32_MAX this]> (heap s))
     \/
     (exists p partner,
        is_paired c s = Some (true, s) /\
        m_pairedClient this = Some p /\ p <> c /\ heap s !! p = Some partner /\
        heap s1 =
          <[c := set_pairedClientSavedResetCounter UINT32_MAX
                   (set_pairedClient None this)]>
            (<[p := set_isClosing true (set_pairedClient None partner)]> (heap s)))).
Proof.
  unfold reset, close. intros Hr.
  apply bind_Some in Hr as (paired & s0 & Hpaired & Hr).
  apply bind_Some in Hr as (u0 & sb & Hbody & Hr).
  pose proof (is_paired_state _ _ _ _ Hpaired) as ->.
  destruct paired.
  - (* paired *)
    pose proof Hpaired as (this & p & partner & Hc & Ep & Hq & Hcnt)%is_paired_true.
    apply bind_Some in Hbody as (u1 & sa1 & Hst1 & Hbody).
    apply bind_Some in Hbody as (u2 & sa2 & Hst2 & Hst3).
    apply bind_Some in Hst1 as (p1 & sx & Hp1 & Hm1).
    apply pairedClient_Some in Hp1 as (this' & Hc' & Ep' & ->).
    rewrite Hc in Hc'. injection Hc' as <-.
    rewrite Ep in Ep'. injection Ep' as <-.
    apply modify_Some in Hm1 as (x1 & Hx1 & ->).
    rewrite Hq in Hx1. injection Hx1 as <-.
    apply bind_Some in Hst2 as (p2 & sy & Hp2 & Hm2).
    apply pairedClient_Some in Hp2 as (this2 & Hc2 & Ep2 & ->).
    cbn [heap set_heap] in *.
    assert (Hne : p <> c).
    { intros ->. rewrite lookup_insert_eq in Hc2. injection Hc2 as <-.
      discriminate. }
    rewrite lookup_insert_ne in Hc2 by exact Hne.
    rewrite Hc in Hc2. injection Hc2 as <-.
    rewrite Ep in Ep2. injection Ep2 as <-.
    apply modify_Some in Hm2 as (x2 & Hx2 & ->).
    apply modify_Some in Hst3 as (x3 & Hx3 & ->).
    apply modify_Some in Hr as (x4 & Hx4 & ->).
    cbn [heap set_heap] in *.
    rewrite lookup_insert_eq in Hx2. injection Hx2 as <-.
    rewrite insert_insert_eq in Hx3, Hx4 |- *.
    rewrite lookup_insert_ne in Hx3 by exact Hne.
    rewrite Hc in Hx3. injection Hx3 as <-.
    rewrite lookup_insert_eq in Hx4. injection Hx4 as <-.
    rewrite insert_insert_eq.
    split; [reflexivity|]. exists this. split; [exact Hc|]. right.
    exists p, partner. repeat split; auto.
  - (* not paired *)
    apply ret_Some in Hbody as [_ ->].
    apply modify_Some in Hr as (this & Hc & ->).
    split; [reflexivity|]. exists this. split; [exact Hc|]. left. auto.
Qed.

(** reset leaves alone every connection that is neither the one reset nor
    the one its partner pointer names. *)
Lemma reset_frame c s u s1 t :
  reset c s = Some (u, s1) ->
  t <> c -> partner_of s c <> Some t ->
  heap s1 !! t = heap s !! t.
Proof.
  intros (_ & this & Hc & Hcase)%reset_inv Htc Htp.
  unfold partner_of in Htp. rewrite Hc in Htp.
  destruct Hcase as [[_ ->] | (p & partner & _ & Ep & _ & _ & ->)].
  - rewrite lookup_insert_ne by auto. reflexivity.
  - rewrite !lookup_insert_ne by congruence. reflexivity.
Qed.

(** After reset the connection is still there, stores the sentinel epoch,
    and keeps its partner pointer only if the call found it unpaired. *)
Lemma reset_self c s u s1 :
  reset c s = Some (u, s1) ->
  exists this this1,
    heap s !! c = Some this /\ heap s1 !! c = Some this1 /\
    m_pairedClientSavedResetCounter this1 = UINT32_MAX /\
    ((is_paired c s = Some (true, s) /\ m_pairedClient this1 = None) \/
     (is_paired c s = Some (false, s) /\
      m_pairedClient this1 = m_pairedClient this /\
      heap s1 = <[c := this1]> (heap s))).
Proof.
  intros (_ & this & Hc & Hcase)%reset_inv. exists this.
  destruct Hcase as [[Hp ->] | (p & partner & Hp & _ & _ & _ & ->)];
    eexists; (split; [exact Hc|]); rewrite lookup_insert_eq;
    (split; [reflexivity|]); (split; [reflexivity|]); [right | left]; auto.
Qed.

(** reset on a connection whose partner pointer is null or names another
    connection object runs to completion. *)
Lemma reset_defined c s this :
  heap s !! c = Some this ->
  (forall p, m_pairedClient this = Some p -> p <> c /\ is_Some (heap s !! p)) ->
  exists s1, reset c s = Some (tt, s1).
Proof.
  intros Hc Hvalid.
  cut (is_Some (reset c s)).
  { intros [[[] s1] E]. eauto. }
  unfold reset, close, mbind, M_bind.
  destruct (m_pairedClient this) as [p|] eqn:Ep.
  - destruct (Hvalid p eq_refl) as [Hne [partner Hq]].
    destruct (decide (m_resetCounter partner
                      = m_pairedClientSavedResetCounter this)) as [Hcnt|Hcnt].
    + replace (is_paired c s) with (Some (true, s))
        by (symmetry; apply is_paired_true; eauto 10).
      rewrite (pairedClient_run _ _ _ _ Hc Ep).
      rewrite (modify_run _ _ _ _ Hq).
      assert (Hc2 : heap (set_heap (<[p := set_pairedClient None partner]>
                                      (heap s)) s) !! c = Some this)
        by (cbn [heap set_heap]; rewrite lookup_insert_ne by exact Hne;
            exact Hc).
      rewrite (pairedClient_run _ _ _ _ Hc2 Ep).
      erewrite modify_run by (cbn [heap set_heap]; apply lookup_insert_eq).
      cbn [heap set_heap]. rewrite insert_insert_eq.
      erewrite modify_run
        by (cbn [heap set_heap]; rewrite lookup_insert_ne by exact Hne; exact Hc).
      erewrite modify_run by (cbn [heap set_heap]; apply lookup_insert_eq).
      eauto.
    + replace (is_paired c s) with (Some (false, s))
        by (symmetry; eapply is_paired_false; eauto 10).
      cbn. rewrite (modify_run _ _ _ _ Hc). eauto.
  - replace (is_paired c s) with (Some (false, s))
      by (symmetry; eapply is_paired_false; eauto).
    cbn. rewrite (modify_run _ _ _ _ Hc). eauto.
Qed.

Lemma is_paired_partner_valid c s b s' this p :
  is_paired c s = Some (b, s') ->
  heap s !! c = Some this -> m_pairedClient this = Some p ->
  is_Some (heap s !! p).
Proof.
  unfold is_paired. intros Hp Hc Ep. run_inv Hp.
  apply load_Some in Hrun as [Hc' ->]. rewrite Hc in Hc'. injection Hc' as <-.
  rewrite Ep in Hp. run_inv Hp. apply load_Some in Hrun as [Hq _]. eauto.
Qed.

Lemma set_saved_id (this : TariClient) :
  m_pairedClientSavedResetCounter this = UINT32_MAX ->
  set_pairedClientSavedResetCounter UINT32_MAX this = this.
Proof. destruct this. cbn. intros ->. reflexivity. Qed.

Lemma set_heap_id s : set_heap (heap s) s = s.
Proof. destruct s; reflexivity. Qed.




(** The stale-pairing guard at work: once reset has unlinked the partner of a
    connection, a read on that former partner is rejected and changes
    nothing, whatever the pool does with the reset connection afterwards. *)
Lemma on_read_after_partner_reset
    (s s1 : TariServer) (a b : ptr) (data : list byte) (size : Z) :
  is_paired a s = Some (true, s) ->
  partner_of s a = Some b ->
  reset a s = Some (tt, s1) ->
  on_read b data size s1 = Some (false, s1).
Proof.
  intros Hp Hb Hr.
  pose proof (reset_inv _ _ _ _ Hr) as (_ & this & Ha & Hcase).
  unfold partner_of in Hb. rewrite Ha in Hb.
  destruct Hcase as [[Hp' _] | (p & partner & _ & Ep & Hne & Hq & Hheap)];
    [congruence|].
  assert (p = b) as -> by congruence.
  assert (exists x, heap s1 !! b = Some x /\ m_pairedClient x = None)
    as (x & Hx & Hnone).
  { rewrite Hheap, lookup_insert_ne, lookup_insert_eq by auto.
    eexists. split; reflexivity. }
  eapply on_read_not_paired; [exact Hx|].
  eapply is_paired_false; eauto.
Qed.

(** ** connect_upstream *)

Lemma heap_only_connects s s' : heap_only s s' -> connects s' = connects s.
Proof. intros ->. reflexivity. Qed.

Lemma heap_only_pool s s' :
  heap_only s s' -> m_preallocatedClients s' = m_preallocatedClients s.
Proof. intros ->. reflexivity. Qed.

(** get_client makes no connect attempt and returns a connection object
    that exists. *)
Lemma get_client_inv s u s1 :
  get_client s = Some (u, s1) ->
  connects s1 = connects s /\ is_Some (heap s1 !! u) /\
  m_preallocatedClients s1 = tail (m_preallocatedClients s).
Proof.
  unfold get_client. intros Hg. run_inv Hg.
  apply get_Some in Hrun as [-> ->].
  destruct (m_preallocatedClients s) as [|c rest] eqn:Epool.
  - run_inv Hg. apply put_Some in Hrun as ->.
    apply ret_Some in Hg as [-> ->]. cbn. rewrite lookup_insert_eq.
    rewrite Epool. eauto.
  - run_inv Hg. apply put_Some in Hrun as ->.
    apply ret_Some in Hg as [-> ->]. destruct a0.
    pose proof (reset_inv _ _ _ _ Hrun0) as [Hho _].
    pose proof (reset_self _ _ _ _ Hrun0) as (? & this1 & _ & Hc1 & _).
    rewrite (heap_only_connects _ _ Hho), (heap_only_pool _ _ Hho), Hc1.
    cbn. eauto.
Qed.

Lemma return_client_inv c s u s' :
  return_client c s = Some (u, s') ->
  connects s' = connects s /\ is_Some (heap s' !! c) /\
  m_preallocatedClients s' = c :: m_preallocatedClients s.
Proof.
  unfold return_client. intros Hr. run_inv Hr.
  apply modify_Some in Hrun as (this & Hc & ->).
  apply get_Some in Hrun0 as [-> ->]. apply put_Some in Hr as ->.
  cbn. rewrite lookup_insert_eq. eauto.
Qed.

(** A connect attempt that fails has released the object; in both cases
    exactly one attempt was made. *)
Lemma connect_to_peer_inv c s ok s' :
  connect_to_peer c s = Some (ok, s') ->
  connects s' = S (connects s) /\ ok = tcp_connect (connects s) /\
  if ok then heap_only (set_connects (S (connects s)) s) s' /\ heap s' = heap s
  else m_preallocatedClients s' = c :: m_preallocatedClients s.
Proof.
  unfold connect_to_peer. intros Hc. run_inv Hc.
  apply get_Some in Hrun as [-> ->]. apply put_Some in Hrun0 as ->.
  destruct (tcp_connect (connects s)) eqn:E.
  - apply ret_Some in Hc as [-> ->]. cbn. repeat split; auto.
  - run_inv Hc. apply ret_Some in Hc as [-> ->].
    apply return_client_inv in Hrun as (E1 & _ & E2). rewrite E1, E2. auto.
Qed.

(** The state in which connect_upstream makes its decision: the upstream
    object has been taken from the pool and given the target of the node. *)
Lemma connect_upstream_prefix d s r s' :
  connect_upstream d s = Some (r, s') ->
  exists u s1 s4,
    get_client s = Some (u, s1) /\ heap_only s1 s4 /\
    is_Some (heap s4 !! u) /\
    match str_to_ip (m_TariNodeIsV6 s) (m_TariNodeHost s) with
    | None =>
        r = false /\ return_client u s4 = Some (tt, s')
    | Some addr =>
        exists s6 ok s7,
          heap_only s4 s6 /\ connect_to_peer u s6 = Some (ok, s7) /\
          if ok then
            (modify u (set_pairedClient (Some d));;
             dc ← load d;
             modify u (set_pairedClientSavedResetCounter (m_resetCounter dc));;
             modify d (set_pairedClient (Some u));;
             uc ← load u;
             modify d (set_pairedClientSavedResetCounter (m_resetCounter uc));;
             mret true) s7 = Some (r, s')
          else r = false /\ s' = s7
    end.
Proof.
  unfold connect_upstream. intros Hc. run_inv Hc.
  apply get_Some in Hrun as [-> ->].
  pose proof (modify_heap_only _ _ _ _ _ Hrun1) as H1.
  pose proof (modify_heap_only _ _ _ _ _ Hrun2) as H2.
  pose proof (modify_heap_only _ _ _ _ _ Hrun3) as H3.
  exists a0, s1, s4. split; [exact Hrun0|].
  split; [eauto using heap_only_trans|].
  split. { apply modify_Some in Hrun3 as (x & _ & ->). cbn.
           rewrite lookup_insert_eq. eauto. }
  destruct (str_to_ip _ _) as [addr|].
  - run_inv Hc.
    pose proof (modify_heap_only _ _ _ _ _ Hrun) as H4.
    pose proof (modify_heap_only _ _ _ _ _ Hrun4) as H5.
    exists s5, a5, s6. split; [eauto using heap_only_trans|].
    split; [exact Hrun5|].
    destruct a5; cbn [negb] in Hc; [exact Hc|].
    apply ret_Some in Hc as [-> ->]. auto.
  - run_inv Hc. apply ret_Some in Hc as [-> ->].
    match goal with
    | E : return_client _ _ = Some (?x, _) |- _ => destruct x; auto
    end.
Qed.

(** C5. After a successful connect_upstream the pairing is symmetric: the
    downstream's partner pointer is the upstream object taken from the pool,
    the upstream's partner pointer is the downstream, and each saved epoch is
    the reset counter the other side had in the state [s_pairing] in which
    connect_to_peer returned true (the pairing time), which is also its
    reset counter on return. *)
Theorem connect_upstream_pairs_symmetrically
    (s s' : TariServer) (downstream : ptr) :
  connect_upstream downstream s = Some (true, s') ->
  exists upstream s1 s_pairing d0 u0 d1 u1,
    get_client s = Some (upstream, s1) /\
    (exists s_connect,
       connect_to_peer upstream s_connect = Some (true, s_pairing)) /\
    heap s_pairing !! downstream = Some d0 /\
    heap s_pairing !! upstream = Some u0 /\
    heap s' !! downstream = Some d1 /\
    heap s' !! upstream = Some u1 /\
    m_pairedClient d1 = Some upstream /\
    m_pairedClient u1 = Some downstream /\
    m_pairedClientSavedResetCounter d1 = m_resetCounter u0 /\
    m_pairedClientSavedResetCounter u1 = m_resetCounter d0 /\
    m_resetCounter d1 = m_resetCounter d0 /\
    m_resetCounter u1 = m_resetCounter u0.
Proof.
  intros Hc.
  destruct (connect_upstream_prefix _ _ _ _ Hc)
    as (u & s1 & s4 & Hget & _ & _ & Hrest).
  destruct (str_to_ip _ _); [|destruct Hrest; discriminate].
  destruct Hrest as (s6 & ok & s7 & _ & Hconn & Hlink).
  destruct ok; [|destruct Hlink; discriminate].
  clear Hc. run_inv Hlink. apply ret_Some in Hlink as [_ ->].
  apply modify_Some in Hrun as (u0 & Hu0 & ->).
  apply load_Some in Hrun0 as [Hd ->].
  apply modify_Some in Hrun1 as (x1 & Hx1 & ->).
  apply modify_Some in Hrun2 as (x2 & Hx2 & ->).
  apply load_Some in Hrun3 as [Hu ->].
  apply modify_Some in Hrun4 as (x3 & Hx3 & ->).
  cbn [heap set_heap] in *.
  exists u, s1, s7.
  destruct (decide (u = downstream)) as [->|Hne].
  - (* the object taken from the pool is the downstream itself *)
    simplify_map_eq. exists u0, u0. do 2 eexists.
    split; [exact Hget|]. split; [eauto|].
    repeat (split; [first [eassumption | reflexivity]|]). reflexivity.
  - simplify_map_eq. exists a0, u0. do 2 eexists.
    split; [exact Hget|]. split; [eauto|].
    repeat (split; [first [eassumption | reflexivity]|]). reflexivity.
Qed.

(** C6. When connect_upstream fails, by the address translation or by the
    connect attempt, the upstream object taken from the pool is back at the
    head of the pool, at most one connect attempt was made (none when the
    address translation failed), and on_connect of an incoming connection
    hands the failure to its caller. *)
Theorem connect_upstream_failure_releases
    (s s' : TariServer) (downstream : ptr) :
  connect_upstream downstream s = Some (false, s') ->
  exists upstream s1,
    get_client s = Some (upstream, s1) /\
    m_preallocatedClients s' = upstream :: tail (m_preallocatedClients s) /\
    (connects s' <= S (connects s))%nat /\
    (str_to_ip (m_TariNodeIsV6 s) (m_TariNodeHost s) = None ->
       connects s' = connects s) /\
    (str_to_ip (m_TariNodeIsV6 s) (m_TariNodeHost s) <> None ->
       connects s' = S (connects s) /\ tcp_connect (connects s) = false) /\
    (forall this, heap s !! downstream = Some this ->
       m_owner this = true -> m_isIncoming this = true ->
       on_connect downstream s = Some (false, s')).
Proof.
  intros Hc.
  destruct (connect_upstream_prefix _ _ _ _ Hc)
    as (u & s1 & s4 & Hget & Hho & _ & Hrest).
  pose proof (get_client_inv _ _ _ Hget) as (Hcon1 & _ & Hpool1).
  exists u, s1. split; [exact Hget|].
  assert (Hon : forall this, heap s !! downstream = Some this ->
            m_owner this = true -> m_isIncoming this = true ->
            on_connect downstream s = Some (false, s')).
  { intros this Hd Ho Hi. unfold on_connect.
    rewrite (bind_eq _ _ s this s) by (apply load_run; exact Hd).
    rewrite Ho, Hi. exact Hc. }
  destruct (str_to_ip _ _) as [addr|].
  - destruct Hrest as (s6 & ok & s7 & Hho6 & Hconn & Hlink).
    destruct ok.
    + (* the pairing statements do not return false *)
      exfalso. clear Hc Hon. run_inv Hlink.
      apply ret_Some in Hlink as [[=] _].
    + destruct Hlink as [_ ->].
      apply connect_to_peer_inv in Hconn as (Hcon7 & Hok & Hpool7).
      rewrite Hpool7, (heap_only_pool _ _ Hho6), (heap_only_pool _ _ Hho), Hpool1.
      rewrite Hcon7, (heap_only_connects _ _ Hho6), (heap_only_connects _ _ Hho),
        Hcon1 in *.
      repeat split; auto; congruence.
  - destruct Hrest as [_ Hret].
    apply return_client_inv in Hret as (Hcon & _ & Hpool).
    rewrite Hpool, (heap_only_pool _ _ Hho), Hpool1.
    rewrite Hcon, (heap_only_connects _ _ Hho), Hcon1.
    repeat split; auto; congruence.
Qed.

(** ** Runs that complete

    A call completes when the pointers it follows name connection objects.
    Objects are never removed from the heap. *)

Lemma insert_keeps (h : gmap nat TariClient) k v t :
  is_Some (h !! t) -> is_Some (<[k := v]> h !! t).
Proof. intros Ht. rewrite lookup_insert. case_decide; eauto. Qed.

Lemma modify_defined p f s :
  is_Some (heap s !! p) ->
  exists s', modify p f s = Some (tt, s') /\ keeps_objects s s'.
Proof.
  intros [c Hc]. eexists. split; [apply modify_run; exact Hc|].
  intros t Ht. cbn. apply insert_keeps, Ht.
Qed.

Lemma reset_keeps_objects c s u s1 :
  reset c s = Some (u, s1) -> keeps_objects s s1.
Proof.
  intros (_ & this & Hc & Hcase)%reset_inv t Ht.
  destruct Hcase as [[_ ->] | (p & partner & _ & _ & _ & _ & ->)];
    auto using insert_keeps.
Qed.

Lemma get_client_defined s :
  pool_valid s ->
  exists u s1, get_client s = Some (u, s1) /\ keeps_objects s s1.
Proof.
  intros Hpool. unfold get_client.
  rewrite (bind_eq _ _ s s s) by apply get_run.
  destruct (m_preallocatedClients s) as [|c rest] eqn:Epool.
  - erewrite bind_eq by apply put_run.
    eexists _, _. split; [reflexivity|].
    intros t Ht. cbn. apply insert_keeps, Ht.
  - erewrite bind_eq by apply put_run.
    destruct (Hpool c) as (this & Hc & Hvalid); [rewrite Epool; left|].
    destruct (reset_defined c (set_preallocatedClients rest s) this Hc Hvalid)
      as [s1 Hr].
    erewrite bind_eq by exact Hr.
    eexists _, _. split; [reflexivity|].
    apply (reset_keeps_objects _ _ _ _ Hr).
Qed.

Lemma return_client_defined c s :
  is_Some (heap s !! c) ->
  exists s', return_client c s = Some (tt, s') /\ keeps_objects s s'.
Proof.
  intros [this Hc]. unfold return_client.
  erewrite bind_eq by (apply modify_run; exact Hc).
  erewrite bind_eq by apply get_run.
  eexists. split; [apply put_run|].
  intros t Ht. cbn. apply insert_keeps, Ht.
Qed.

Lemma connect_to_peer_defined c s :
  is_Some (heap s !! c) ->
  exists ok s', connect_to_peer c s = Some (ok, s') /\ keeps_objects s s'.
Proof.
  intros Hc. unfold connect_to_peer.
  erewrite bind_eq by apply get_run.
  erewrite bind_eq by apply put_run.
  destruct (tcp_connect (connects s)).
  - eexists _, _. split; [reflexivity|]. intros t Ht. exact Ht.
  - destruct (return_client_defined c (set_connects (S (connects s)) s) Hc)
      as (s' & Hr & Hk).
    erewrite bind_eq by exact Hr. eexists _, _. split; [reflexivity|].
    exact Hk.
Qed.

(** connect_upstream returns, with success or with failure, whenever the
    downstream is a connection object and the pool is valid. *)
Lemma connect_upstream_defined (s : TariServer) (downstream : ptr) :
  is_Some (heap s !! downstream) -> pool_valid s ->
  exists r s', connect_upstream downstream s = Some (r, s').
Proof.
  intros Hd Hpool. unfold connect_upstream.
  rewrite (bind_eq _ _ s s s) by apply get_run.
  destruct (get_client_defined s Hpool) as (u & s1 & Hget & K1).
  rewrite (bind_eq _ _ _ _ _ Hget).
  pose proof (get_client_inv _ _ _ Hget) as (_ & Hu1 & _).
  destruct (modify_defined u (set_owner true) s1 Hu1) as (s2 & E2 & K2).
  rewrite (bind_eq _ _ _ _ _ E2).
  destruct (modify_defined u (set_port (m_TariNodePort s)) s2 (K2 _ Hu1))
    as (s3 & E3 & K3).
  rewrite (bind_eq _ _ _ _ _ E3).
  destruct (modify_defined u (set_isV6 (m_TariNodeIsV6 s)) s3 (K3 _ (K2 _ Hu1)))
    as (s4 & E4 & K4).
  rewrite (bind_eq _ _ _ _ _ E4).
  assert (Hu4 : is_Some (heap s4 !! u)) by auto.
  assert (Hd4 : is_Some (heap s4 !! downstream)) by auto.
  destruct (str_to_ip _ _) as [addr|].
  - destruct (modify_defined u (set_addr addr) s4 Hu4) as (s5 & E5 & K5).
    rewrite (bind_eq _ _ _ _ _ E5).
    destruct (modify_defined u
                (set_addrString (format_addr (m_TariNodeIsV6 s)
                   (m_TariNodeHost s) (m_TariNodePort s))) s5 (K5 _ Hu4))
      as (s6 & E6 & K6).
    rewrite (bind_eq _ _ _ _ _ E6).
    destruct (connect_to_peer_defined u s6 (K6 _ (K5 _ Hu4)))
      as (ok & s7 & E7 & K7).
    rewrite (bind_eq _ _ _ _ _ E7).
    destruct ok; cbn [negb]; [|eexists _, _; reflexivity].
    assert (Hu7 : is_Some (heap s7 !! u)) by auto.
    assert (Hd7 : is_Some (heap s7 !! downstream)) by auto.
    destruct (modify_defined u (set_pairedClient (Some downstream)) s7 Hu7)
      as (s8 & E8 & K8).
    rewrite (bind_eq _ _ _ _ _ E8).
    destruct (K8 _ Hd7) as [dc Hdc].
    rewrite (bind_eq _ _ _ _ _ (load_run _ _ _ Hdc)).
    destruct (modify_defined u
                (set_pairedClientSavedResetCounter (m_resetCounter dc)) s8
                (K8 _ Hu7)) as (s9 & E9 & K9).
    rewrite (bind_eq _ _ _ _ _ E9).
    destruct (modify_defined downstream (set_pairedClient (Some u)) s9
                (K9 _ (K8 _ Hd7))) as (s10 & E10 & K10).
    rewrite (bind_eq _ _ _ _ _ E10).
    destruct (K10 _ (K9 _ (K8 _ Hu7))) as [uc Huc].
    rewrite (bind_eq _ _ _ _ _ (load_run _ _ _ Huc)).
    destruct (modify_defined downstream
                (set_pairedClientSavedResetCounter (m_resetCounter uc)) s10
                (K10 _ (K9 _ (K8 _ Hd7)))) as (s11 & E11 & K11).
    rewrite (bind_eq _ _ _ _ _ E11).
    eexists _, _. reflexivity.
  - destruct (return_client_defined u s4 Hu4) as (s5 & E5 & K5).
    rewrite (bind_eq _ _ _ _ _ E5). eexists _, _. reflexivity.
Qed.

(** The result of connect_upstream is decided by the address translation
    and by the one connect attempt. *)
Lemma connect_upstream_result (s s' : TariServer) (downstream : ptr) (r : bool) :
  connect_upstream downstream s = Some (r, s') ->
  r = match str_to_ip (m_TariNodeIsV6 s) (m_TariNodeHost s) with
      | None => false
      | Some _ => tcp_connect (connects s)
      end.
Proof.
  intros Hc.
  destruct (connect_upstream_prefix _ _ _ _ Hc)
    as (u & s1 & s4 & Hget & Hho & _ & Hrest).
  pose proof (get_client_inv _ _ _ Hget) as (Hcon1 & _ & _).
  destruct (str_to_ip _ _) as [addr|]; [|tauto].
  destruct Hrest as (s6 & ok & s7 & Hho6 & Hconn & Hlink).
  apply connect_to_peer_inv in Hconn as (_ & Hok & _).
  rewrite (heap_only_connects _ _ Hho6), (heap_only_connects _ _ Hho), Hcon1
    in Hok.
  rewrite <- Hok. destruct ok; [|tauto].
  clear Hc. run_inv Hlink. apply ret_Some in Hlink as [-> _]. reflexivity.
Qed.

(** ** start *)

Lemma random_port_range i : 49152 <= random_port i <= 65535.
Proof.
  unfold random_port.
  pose proof (Z.mod_pos_bound (rd i mod 2 ^ 32) 16384 ltac:(lia)). lia.
Qed.

(** The loop stops at the first bind that succeeds; [n] iterations are left
    and [i] is the loop counter. Every attempt is on the IPv4 loopback
    address. *)
Lemma start_loop_spec (n i : nat) (s : TariServer) :
  exists attempts,
    binds (start_loop n i s) = binds s ++ attempts /\
    (length attempts <= n)%nat /\
    Forall (fun e => e_is_v6 e = false /\ e_ip e = "127.0.0.1"%string /\
                     49152 <= e_port e <= 65535) attempts /\
    heap (start_loop n i s) = heap s /\
    m_preallocatedClients (start_loop n i s) = m_preallocatedClients s /\
    ((m_listenPort (start_loop n i s) = m_listenPort s /\
      forall k, (k < n)%nat ->
        tcp_bind (i + k) false "127.0.0.1" (random_port (i + k)) = false)
     \/
     (exists k, (k < n)%nat /\
        tcp_bind (i + k) false "127.0.0.1" (random_port (i + k)) = true /\
        m_listenPort (start_loop n i s) = random_port (i + k) /\
        In (mkEndpoint false "127.0.0.1" (random_port (i + k))) attempts)).
Proof.
  revert i s. induction n as [|n IH]; intros i s.
  - exists []. cbn. rewrite app_nil_r.
    do 5 (split; [auto|]). left. split; [reflexivity | intros; lia].
  - cbn [start_loop]. unfold start_listening.
    destruct (tcp_bind i false "127.0.0.1" (random_port i)) eqn:Eb.
    + exists [mkEndpoint false "127.0.0.1" (random_port i)]. cbn.
      split; [reflexivity|]. split; [lia|].
      split; [constructor; [cbn; pose proof (random_port_range i); auto
                           | constructor]|].
      do 2 (split; [reflexivity|]).
      right. exists 0%nat. rewrite Nat.add_0_r.
      split; [lia|]. split; [exact Eb|]. split; [reflexivity | now left].
    + destruct (IH (S i)
                  (set_binds (binds s ++ [mkEndpoint false "127.0.0.1"
                                            (random_port i)]) s))
        as (attempts & Hb & Hlen & Hall & Hheap & Hpool & Hcase).
      exists (mkEndpoint false "127.0.0.1" (random_port i) :: attempts).
      rewrite Hb, Hheap, Hpool. cbn. rewrite <- app_assoc. cbn.
      split; [reflexivity|]. split; [lia|].
      split; [constructor; [cbn; pose proof (random_port_range i); auto
                           | exact Hall]|].
      do 2 (split; [reflexivity|]).
      destruct Hcase as [[Hn Hall'] | (k & Hk & Hbk & Hport & Hin)].
      * left. split; [exact Hn|]. intros [|k] Hk.
        -- rewrite Nat.add_0_r. exact Eb.
        -- replace (i + S k)%nat with (S i + k)%nat by lia. apply Hall'. lia.
      * right. exists (S k).
        replace (i + S k)%nat with (S i + k)%nat by lia.
        split; [lia|]. split; [exact Hbk|]. split; [exact Hport | now right].
Qed.

(** C7 (amended). Every call of start makes at most 10 bind attempts, each
    on the IPv4 address 127.0.0.1 and on a port between 49152 and 65535, both
    included; it returns true exactly when the event-loop thread starts and
    either one of the attempts within the budget binds or the server was
    listening already; a call that returns true has set the thread flag, and
    after an attempt that bound the listen port is the port of one of the
    attempts. *)
Theorem start_binds_within_budget (s : TariServer) :
  exists attempts,
    binds (start s).2 = binds s ++ attempts /\
    (length attempts <= 10)%nat /\
    Forall (fun e => e_is_v6 e = false /\ e_ip e = "127.0.0.1"%string /\
                     49152 <= e_port e <= 65535) attempts /\
    ((start s).1 = true <->
       ((exists k, (k < 10)%nat /\
           tcp_bind k false "127.0.0.1" (random_port k) = true) \/
        0 <= m_listenPort s) /\
       uv_thread_create = 0) /\
    ((start s).1 = true -> m_loopThreadCreated (start s).2 = true) /\
    ((exists k, (k < 10)%nat /\
        tcp_bind k false "127.0.0.1" (random_port k) = true) ->
     In (mkEndpoint false "127.0.0.1" (external_listen_port (start s).2))
       attempts).
Proof.
  unfold start, external_listen_port.
  destruct (start_loop_spec 10 0 s)
    as (attempts & Hb & Hlen & Hall & _ & _ & Hcase).
  exists attempts.
  destruct Hcase as [[Hn Hnone] | (k & Hk & Hbk & Hport & Hin)].
  - (* every attempt failed *)
    assert (Hno : ~ exists k, (k < 10)%nat /\
                    tcp_bind k false "127.0.0.1" (random_port k) = true).
    { intros (k & Hk & Hbk). specialize (Hnone k Hk). cbn in Hnone. congruence. }
    rewrite Hn.
    destruct (Z.ltb_spec (m_listenPort s) 0) as [Hneg|Hpos]; cbn [fst snd].
    + repeat split; auto; try discriminate; try tauto.
      intros [[Hk|Hk] _]; [tauto | lia].
    + destruct (Z.eqb_spec uv_thread_create 0) as [E|E]; cbn [negb fst snd].
      * repeat split; auto; tauto.
      * repeat split; auto; try discriminate; try tauto.
  - pose proof (random_port_range (0 + k)) as Hr.
    replace (m_listenPort (start_loop 10 0 s) <? 0) with false
      by (symmetry; apply Z.ltb_ge; lia).
    destruct (Z.eqb_spec uv_thread_create 0) as [E|E]; cbn [negb fst snd].
    + cbn [m_listenPort set_loopThreadCreated binds]. rewrite Hport.
      repeat split; eauto.
    + rewrite Hport. repeat split; auto; try discriminate; try tauto.
Qed.

(** ** More on the forwarding path *)

Lemma length_memcpy (buf data : list byte) (size : Z) :
  (Z.to_nat size <= length data)%nat -> (Z.to_nat size <= length buf)%nat ->
  length (memcpy buf data size) = length buf.
Proof.
  intros Hd Hb. unfold memcpy.
  rewrite length_app, length_take, length_drop. lia.
Qed.

Lemma drop_memcpy (buf data : list byte) (size : Z) :
  (Z.to_nat size <= length data)%nat ->
  drop (Z.to_nat size) (memcpy buf data size) = drop (Z.to_nat size) buf.
Proof.
  intros Hd. unfold memcpy. apply drop_app_length'.
  rewrite length_take. lia.
Qed.

(** X4. The lambda handed to send (lines 294-302) respects the buffer it is
    given: it reports either [size] or 0 bytes, never more than the buffer
    holds; it keeps the length of the buffer; the bytes it reports are the
    first [size] bytes of [data] and the bytes after them are untouched. *)
Theorem on_read_callback_within_buffer
    (data buf : list byte) (size : Z) :
  0 <= size ->
  (Z.to_nat size <= length data)%nat ->
  let n := (on_read_callback data size buf (Z.of_nat (length buf))).1 in
  let buf' := (on_read_callback data size buf (Z.of_nat (length buf))).2 in
  0 <= n <= Z.of_nat (length buf) /\
  (n = size \/ (n = 0 /\ size > Z.of_nat (length buf) /\ buf' = buf)) /\
  length buf' = length buf /\
  take (Z.to_nat n) buf' = take (Z.to_nat n) data /\
  drop (Z.to_nat n) buf' = drop (Z.to_nat n) buf.
Proof.
  intros Hsz Hlen. cbv zeta. unfold on_read_callback.
  destruct (size >? Z.of_nat (length buf)) eqn:E; cbn [fst snd].
  - split; [lia|]. split; [right; repeat split; lia|].
    split; [reflexivity|]. split; reflexivity.
  - split; [lia|]. split; [left; reflexivity|].
    split; [apply length_memcpy; lia|].
    split; [apply take_memcpy; exact Hlen | apply drop_memcpy; exact Hlen].
Qed.

(** A read that fits, on a validly paired connection, with the state after
    it. *)
Lemma on_read_forward_run (s : TariServer) (c p : ptr) (this partner : TariClient)
    (data : list byte) (size : Z) :
  heap s !! c = Some this ->
  m_owner this = true ->
  m_pairedClient this = Some p ->
  heap s !! p = Some partner ->
  m_resetCounter partner = m_pairedClientSavedResetCounter this ->
  0 < size <= Z.of_nat (length (m_callbackBuf s)) ->
  (Z.to_nat size <= length data)%nat ->
  on_read c data size s
  = Some (true,
          set_heap (<[p := set_sent (m_sent partner ++ take (Z.to_nat size) data)
                              partner]> (heap s))
            (set_callbackBuf (memcpy (m_callbackBuf s) data size) s)).
Proof.
  intros Hc Ho Hp Hq Hcnt Hsz Hlen. unfold on_read.
  rewrite (bind_eq _ _ s this s) by (apply load_Some; auto).
  rewrite Ho. cbn [negb].
  rewrite (bind_eq _ _ s true s) by (apply is_paired_true; eauto 10).
  cbn [negb].
  rewrite (bind_eq _ _ s p s) by (eapply pairedClient_run; eauto).
  unfold send. rewrite (bind_eq _ _ s s s) by apply get_run.
  unfold on_read_callback.
  replace (size >? Z.of_nat (length (m_callbackBuf s))) with false
    by (symmetry; rewrite Z.gtb_ltb; apply Z.ltb_ge; lia).
  cbv beta iota.
  erewrite bind_eq by apply put_run.
  replace (size =? 0) with false by (symmetry; apply Z.eqb_neq; lia).
  erewrite bind_eq by (apply modify_run; exact Hq).
  rewrite take_memcpy by exact Hlen. reflexivity.
Qed.

(** ** More on reset *)

(** reset changes nothing on a connection that stores no partner and the
    sentinel epoch. *)
Lemma reset_of_reset_state (s : TariServer) (c : ptr) (x : TariClient) :
  heap s !! c = Some x ->
  m_pairedClient x = None ->
  m_pairedClientSavedResetCounter x = UINT32_MAX ->
  reset c s = Some (tt, s).
Proof.
  intros Hc Hnone Hmax. unfold reset.
  rewrite (bind_eq _ _ s false s) by (eapply is_paired_false; eauto).
  rewrite (bind_eq _ _ s tt s) by reflexivity.
  rewrite (modify_run _ _ _ _ Hc), set_saved_id, insert_id by assumption.
  rewrite set_heap_id. reflexivity.
Qed.

(** X5. A connection object allocated by the constructor (lines 250-256)
    is in the state reset leaves behind: when the pool is empty get_client
    allocates an object at an unused address, reset on it changes nothing,
    and every read on it is rejected without effect. *)
Theorem new_connection_is_reset (s : TariServer) :
  m_preallocatedClients s = [] ->
  exists c s1,
    get_client s = Some (c, s1) /\
    heap s !! c = None /\
    heap s1 !! c = Some TariClient_new /\
    (forall t, t <> c -> heap s1 !! t = heap s !! t) /\
    reset c s1 = Some (tt, s1) /\
    forall data size, on_read c data size s1 = Some (false, s1).
Proof.
  intros Hpool. unfold get_client.
  rewrite (bind_eq _ _ s s s) by apply get_run. rewrite Hpool.
  erewrite bind_eq by apply put_run.
  eexists _, _. split; [reflexivity|].
  assert (Hnew : heap (set_heap (<[fresh (dom (heap s)) := TariClient_new]> (heap s)) s)
                   !! fresh (dom (heap s)) = Some TariClient_new)
    by (cbn [heap set_heap]; apply lookup_insert_eq).
  split; [apply not_elem_of_dom, is_fresh|].
  split; [exact Hnew|].
  split; [intros t Ht; cbn [heap set_heap]; apply lookup_insert_ne; auto|].
  split.
  - eapply reset_of_reset_state; [exact Hnew | reflexivity | reflexivity].
  - intros data size. eapply on_read_not_paired; [exact Hnew|].
    eapply is_paired_false; [exact Hnew | left; reflexivity].
Qed.

(** X6. reset on a paired connection (lines 260-265) unlinks both ends: the
    partner is another connection, afterwards neither end stores a partner,
    the partner is closing and otherwise as it was (its own saved epoch
    included), the connection itself stores the sentinel epoch, and a read
    on either end is rejected without effect. *)
Theorem reset_unpairs_both_ends
    (s s1 : TariServer) (a b : ptr) (this partner : TariClient) :
  heap s !! a = Some this ->
  m_pairedClient this = Some b ->
  heap s !! b = Some partner ->
  m_resetCounter partner = m_pairedClientSavedResetCounter this ->
  reset a s = Some (tt, s1) ->
  b <> a /\
  heap s1 !! a = Some (set_pairedClientSavedResetCounter UINT32_MAX
                         (set_pairedClient None this)) /\
  heap s1 !! b = Some (set_isClosing true (set_pairedClient None partner)) /\
  (forall t, t <> a -> t <> b -> heap s1 !! t = heap s !! t) /\
  (forall data size,
     on_read a data size s1 = Some (false, s1) /\
     on_read b data size s1 = Some (false, s1)) /\
  (m_pairedClient <$> heap s1 !! a) = Some None /\
  (m_pairedClientSavedResetCounter <$> heap s1 !! a) = Some UINT32_MAX /\
  (m_resetCounter <$> heap s1 !! a) = Some (m_resetCounter this) /\
  (m_pairedClient <$> heap s1 !! b) = Some None /\
  (m_isClosing <$> heap s1 !! b) = Some true /\
  (m_resetCounter <$> heap s1 !! b) = Some (m_resetCounter partner) /\
  (m_pairedClientSavedResetCounter <$> heap s1 !! b)
  = Some (m_pairedClientSavedResetCounter partner) /\
  (m_sent <$> heap s1 !! b) = Some (m_sent partner).
Proof.
  intros Ha Hb Hq Hcnt Hr.
  assert (Hp : is_paired a s = Some (true, s)) by (apply is_paired_true; eauto 10).
  pose proof (reset_inv _ _ _ _ Hr) as (_ & this' & Ha' & Hcase).
  rewrite Ha in Ha'. injection Ha' as <-.
  destruct Hcase as [[Hp' _] | (p & partner' & _ & Ep & Hne & Hq' & Hheap)];
    [congruence|].
  assert (p = b) as -> by congruence.
  rewrite Hq in Hq'. injection Hq' as <-.
  assert (Ha1 : heap s1 !! a = Some (set_pairedClientSavedResetCounter UINT32_MAX
                                      (set_pairedClient None this)))
    by (rewrite Hheap; apply lookup_insert_eq).
  assert (Hb1 : heap s1 !! b = Some (set_isClosing true (set_pairedClient None partner)))
    by (rewrite Hheap, lookup_insert_ne, lookup_insert_eq by auto; reflexivity).
  split; [exact Hne|]. split; [exact Ha1|]. split; [exact Hb1|].
  split; [|split].
  - intros t Hta Htb. rewrite Hheap, !lookup_insert_ne by auto. reflexivity.
  - intros data size. split.
    + eapply on_read_not_paired; [exact Ha1|].
      eapply is_paired_false; [exact Ha1 | left; reflexivity].
    + eapply on_read_not_paired; [exact Hb1|].
      eapply is_paired_false; [exact Hb1 | left; reflexivity].
  - rewrite Ha1, Hb1. repeat split.
Qed.

(** ** More on connect_upstream *)

Import Construction.

(** A completed call of connect_upstream, step by step, with the heap after
    the upstream object was given its target. *)
Lemma connect_upstream_steps d s r s' :
  connect_upstream d s = Some (r, s') ->
  exists u s1 x1,
    get_client s = Some (u, s1) /\ heap s1 !! u = Some x1 /\
    let x4 := set_isV6 (m_TariNodeIsV6 s)
                (set_port (m_TariNodePort s) (set_owner true x1)) in
    match str_to_ip (m_TariNodeIsV6 s) (m_TariNodeHost s) with
    | None =>
        r = false /\
        return_client u (set_heap (<[u := x4]> (heap s1)) s1) = Some (tt, s')
    | Some addr =>
        let x6 := set_addrString
                    (format_addr (m_TariNodeIsV6 s) (m_TariNodeHost s)
                       (m_TariNodePort s))
                    (set_addr addr x4) in
        let s6 := set_heap (<[u := x6]> (heap s1)) s1 in
        if tcp_connect (connects s1) then
          link_pair d u (set_connects (S (connects s1)) s6) = Some (r, s')
        else
          r = false /\
          return_client u (set_connects (S (connects s1)) s6) = Some (tt, s')
    end.
Proof.
  unfold connect_upstream. intros Hc.
  apply bind_Some in Hc as (s0 & s0' & Hg & Hc). apply get_Some in Hg as [-> ->].
  apply bind_Some in Hc as (u & s1 & Hget & Hc).
  apply bind_Some in Hc as (u1 & s2 & Hm1 & Hc).
  apply bind_Some in Hc as (u2 & s3 & Hm2 & Hc).
  apply bind_Some in Hc as (u3 & s4 & Hm3 & Hc).
  apply modify_Some in Hm1 as (x1 & Hx1 & ->).
  apply modify_Some in Hm2 as (y & Hy & ->).
  cbn [heap set_heap] in Hy. rewrite lookup_insert_eq in Hy. injection Hy as <-.
  apply modify_Some in Hm3 as (y & Hy & ->).
  cbn [heap set_heap] in Hy. rewrite lookup_insert_eq in Hy. injection Hy as <-.
  cbn [heap set_heap] in Hc. rewrite !insert_insert_eq in Hc.
  exists u, s1, x1. split; [exact Hget|]. split; [exact Hx1|]. cbv zeta.
  destruct (str_to_ip _ _) as [addr|].
  - apply bind_Some in Hc as (u4 & s5 & Hm4 & Hc).
    apply bind_Some in Hc as (u5 & s6 & Hm5 & Hc).
    apply modify_Some in Hm4 as (y & Hy & ->).
    cbn [heap set_heap] in Hy. rewrite lookup_insert_eq in Hy. injection Hy as <-.
    apply modify_Some in Hm5 as (y & Hy & ->).
    cbn [heap set_heap] in Hy. rewrite lookup_insert_eq in Hy. injection Hy as <-.
    cbn [heap set_heap] in Hc. rewrite !insert_insert_eq in Hc.
    apply bind_Some in Hc as (ok & s7 & Hconn & Hc).
    unfold connect_to_peer in Hconn.
    apply bind_Some in Hconn as (sg & sg' & Hg & Hconn).
    apply get_Some in Hg as [-> ->].
    apply bind_Some in Hconn as (u6 & sp & Hput & Hconn).
    apply put_Some in Hput as ->.
    cbn [connects set_heap] in Hconn |- *.
    destruct (tcp_connect (connects s1)).
    + apply ret_Some in Hconn as [-> ->]. cbn [negb] in Hc. exact Hc.
    + apply bind_Some in Hconn as ([] & sr & Hret & Hconn).
      apply ret_Some in Hconn as [-> ->]. cbn [negb] in Hc.
      apply ret_Some in Hc as [-> ->]. split; [reflexivity | exact Hret].
  - apply bind_Some in Hc as ([] & sr & Hret & Hc).
    apply ret_Some in Hc as [-> ->]. split; [reflexivity | exact Hret].
Qed.

(** What the pairing statements do to the heap. *)
Lemma link_pair_inv d u s r s' :
  link_pair d u s = Some (r, s') ->
  r = true /\ heap_only s s' /\
  exists d0 u0 d1 u1,
    heap s !! d = Some d0 /\ heap s !! u = Some u0 /\
    heap s' !! d = Some d1 /\ heap s' !! u = Some u1 /\
    m_pairedClient d1 = Some u /\ m_pairedClient u1 = Some d /\
    m_pairedClientSavedResetCounter d1 = m_resetCounter u0 /\
    m_pairedClientSavedResetCounter u1 = m_resetCounter d0 /\
    pairing_blanked d1 = pairing_blanked d0 /\
    pairing_blanked u1 = pairing_blanked u0 /\
    forall t, t <> d -> t <> u -> heap s' !! t = heap s !! t.
Proof.
  unfold link_pair. intros Hl. run_inv Hl. apply ret_Some in Hl as [-> ->].
  apply modify_Some in Hrun as (u0 & Hu0 & ->).
  apply load_Some in Hrun0 as [Hd ->].
  apply modify_Some in Hrun1 as (x1 & Hx1 & ->).
  apply modify_Some in Hrun2 as (x2 & Hx2 & ->).
  apply load_Some in Hrun3 as [Hu ->].
  apply modify_Some in Hrun4 as (x3 & Hx3 & ->).
  cbn [heap set_heap] in *.
  split; [reflexivity|]. split; [reflexivity|].
  destruct (decide (u = d)) as [->|Hne].
  - simplify_map_eq. exists u0, u0. do 2 eexists.
    do 4 (split; [first [eassumption | reflexivity]|]).
    destruct u0; cbn. repeat split; auto.
    intros t Ht _. rewrite !lookup_insert_ne by auto. reflexivity.
  - simplify_map_eq. exists a0, u0. do 2 eexists.
    do 4 (split; [first [eassumption | reflexivity]|]).
    destruct u0, a0; cbn. repeat split; auto.
    intros t Htd Htu. rewrite !lookup_insert_ne by auto. reflexivity.
Qed.

Lemma pairing_blanked_owner x y :
  pairing_blanked x = pairing_blanked y -> m_owner x = m_owner y.
Proof. intros E. apply (f_equal m_owner) in E. exact E. Qed.

Lemma pairing_blanked_counter x y :
  pairing_blanked x = pairing_blanked y -> m_resetCounter x = m_resetCounter y.
Proof. intros E. apply (f_equal m_resetCounter) in E. exact E. Qed.

Lemma pairing_blanked_sent x y :
  pairing_blanked x = pairing_blanked y -> m_sent x = m_sent y.
Proof. intros E. apply (f_equal m_sent) in E. exact E. Qed.

(** get_client does not take the owner away from a connection. *)
Lemma get_client_keeps_owner s u s1 t x :
  get_client s = Some (u, s1) ->
  heap s !! t = Some x -> m_owner x = true ->
  exists x', heap s1 !! t = Some x' /\ m_owner x' = true.
Proof.
  unfold get_client. intros Hg Ht Ho.
  apply bind_Some in Hg as (s0 & s0' & Hget & Hg).
  apply get_Some in Hget as [-> ->].
  destruct (m_preallocatedClients s) as [|c rest].
  - apply bind_Some in Hg as (u0 & sp & Hput & Hg).
    apply put_Some in Hput as ->. apply ret_Some in Hg as [-> ->].
    exists x. split; [|exact Ho]. cbn [heap set_heap].
    rewrite lookup_insert_ne; [exact Ht|].
    intros E. pose proof (is_fresh (dom (heap s))) as Hf.
    rewrite E in Hf. apply Hf, elem_of_dom. eauto.
  - apply bind_Some in Hg as (u0 & sp & Hput & Hg).
    apply put_Some in Hput as ->.
    apply bind_Some in Hg as (u1 & sr & Hr & Hg).
    apply ret_Some in Hg as [-> ->].
    apply reset_inv in Hr as (_ & this & Hc & Hcase).
    cbn [heap set_preallocatedClients] in *.
    destruct Hcase as [[_ ->] | (p & partner & _ & _ & _ & Hq & ->)].
    + destruct (decide (t = c)) as [->|Hne].
      * rewrite lookup_insert_eq. eexists. split; [reflexivity|].
        rewrite Hc in Ht. injection Ht as <-. exact Ho.
      * rewrite lookup_insert_ne by auto. eauto.
    + destruct (decide (t = c)) as [->|Hne].
      * rewrite lookup_insert_eq. eexists. split; [reflexivity|].
        rewrite Hc in Ht. injection Ht as <-. exact Ho.
      * rewrite lookup_insert_ne by auto.
        destruct (decide (t = p)) as [->|Hne'].
        -- rewrite lookup_insert_eq. eexists. split; [reflexivity|].
           rewrite Hq in Ht. injection Ht as <-. exact Ho.
        -- rewrite lookup_insert_ne by auto. eauto.
Qed.

Lemma get_client_shape s u s1 :
  get_client s = Some (u, s1) ->
  s1 = set_heap (heap s1)
         (set_preallocatedClients (tail (m_preallocatedClients s)) s).
Proof.
  unfold get_client. intros Hg.
  apply bind_Some in Hg as (s0 & s0' & Hget & Hg).
  apply get_Some in Hget as [-> ->].
  destruct (m_preallocatedClients s) as [|c rest] eqn:Epool.
  - apply bind_Some in Hg as (u0 & sp & Hput & Hg).
    apply put_Some in Hput as ->. apply ret_Some in Hg as [-> ->].
    cbn. rewrite <- Epool. destruct s; reflexivity.
  - apply bind_Some in Hg as (u0 & sp & Hput & Hg).
    apply put_Some in Hput as ->.
    apply bind_Some in Hg as (u1 & sr & Hr & Hg).
    apply ret_Some in Hg as [-> ->].
    apply reset_inv in Hr as [Hho _]. exact Hho.
Qed.

Lemma return_client_shape c s u s' :
  return_client c s = Some (u, s') ->
  s' = set_preallocatedClients (c :: m_preallocatedClients s)
         (set_heap (heap s') s).
Proof.
  unfold return_client. intros Hr. run_inv Hr.
  apply modify_Some in Hrun as (this & Hc & ->).
  apply get_Some in Hrun0 as [-> ->]. apply put_Some in Hr as ->.
  reflexivity.
Qed.

(** X7. The result of connect_upstream is decided by the address
    translation and by one connect attempt, and the call leaves the server's
    settings (node address, listen port, thread flag, buffer, bind log) as
    they were. A success takes the upstream object out of the pool and costs
    exactly one connect attempt. *)
Theorem connect_upstream_outcome
    (s s' : TariServer) (downstream : ptr) (r : bool) :
  connect_upstream downstream s = Some (r, s') ->
  r = match str_to_ip (m_TariNodeIsV6 s) (m_TariNodeHost s) with
      | None => false
      | Some _ => tcp_connect (connects s)
      end /\
  m_TariNodeIsV6 s' = m_TariNodeIsV6 s /\
  m_TariNodeHost s' = m_TariNodeHost s /\
  m_TariNodePort s' = m_TariNodePort s /\
  m_listenPort s' = m_listenPort s /\
  m_loopThreadCreated s' = m_loopThreadCreated s /\
  m_callbackBuf s' = m_callbackBuf s /\
  binds s' = binds s /\
  (r = true ->
     m_preallocatedClients s' = tail (m_preallocatedClients s) /\
     connects s' = S (connects s)).
Proof.
  intros Hc.
  destruct (connect_upstream_steps _ _ _ _ Hc) as (u & s1 & x1 & Hget & Hx1 & Hrest).
  pose proof (get_client_shape _ _ _ Hget) as E1. cbv zeta in Hrest.
  assert (Hcon : connects s1 = connects s) by (rewrite E1; reflexivity).
  destruct (str_to_ip _ _) as [addr|].
  - rewrite Hcon in Hrest. destruct (tcp_connect (connects s)).
    + apply link_pair_inv in Hrest as (-> & Hho & _).
      rewrite Hho. cbn. rewrite E1. cbn. repeat split; auto.
    + destruct Hrest as [-> Hret]. apply return_client_shape in Hret as ->.
      cbn. rewrite E1. cbn. repeat split; auto; discriminate.
  - destruct Hrest as [-> Hret]. apply return_client_shape in Hret as ->.
    cbn. rewrite E1. cbn. repeat split; auto; discriminate.
Qed.

(** X8. Whatever its result, connect_upstream leaves the upstream object it
    took from the pool addressed at the configured node: the object has its
    owner set and carries the node's port and address family, and, when the
    address translation succeeded, the translated address and the formatted
    address string. *)
Theorem connect_upstream_targets_node
    (s s' : TariServer) (downstream : ptr) (r : bool) :
  connect_upstream downstream s = Some (r, s') ->
  exists upstream s1 u1,
    get_client s = Some (upstream, s1) /\
    heap s' !! upstream = Some u1 /\
    m_owner u1 = true /\
    m_port u1 = m_TariNodePort s /\
    m_isV6 u1 = m_TariNodeIsV6 s /\
    forall addr,
      str_to_ip (m_TariNodeIsV6 s) (m_TariNodeHost s) = Some addr ->
      m_addr u1 = addr /\
      m_addrString u1
      = format_addr (m_TariNodeIsV6 s) (m_TariNodeHost s) (m_TariNodePort s).
Proof.
  intros Hc.
  destruct (connect_upstream_steps _ _ _ _ Hc) as (u & s1 & x1 & Hget & Hx1 & Hrest).
  exists u, s1. cbv zeta in Hrest.
  destruct (str_to_ip _ _) as [addr|].
  - destruct (tcp_connect (connects s1)).
    + apply link_pair_inv in Hrest
        as (_ & _ & d0 & u0 & d1 & u1 & _ & Hu0 & _ & Hu1 & _ & _ & _ & _ & _ & Eu & _).
      cbn [heap set_heap set_connects] in Hu0.
      rewrite lookup_insert_eq in Hu0. injection Hu0 as <-.
      exists u1. split; [exact Hget|]. split; [exact Hu1|].
      pose proof (f_equal m_owner Eu) as E1.
      pose proof (f_equal m_port Eu) as E2.
      pose proof (f_equal m_isV6 Eu) as E3.
      pose proof (f_equal m_addr Eu) as E4.
      pose proof (f_equal m_addrString Eu) as E5.
      cbn in E1, E2, E3, E4, E5.
      repeat split; auto; congruence.
    + destruct Hrest as [_ Hret]. unfold return_client in Hret. run_inv Hret.
      apply modify_Some in Hrun as (y & Hy & ->).
      apply get_Some in Hrun0 as [-> ->]. apply put_Some in Hret as ->.
      cbn [heap set_heap set_connects] in Hy.
      rewrite lookup_insert_eq in Hy. injection Hy as <-.
      eexists. split; [exact Hget|].
      split; [cbn; apply lookup_insert_eq|]. cbn.
      repeat split; auto; congruence.
  - destruct Hrest as [_ Hret]. unfold return_client in Hret. run_inv Hret.
    apply modify_Some in Hrun as (y & Hy & ->).
    apply get_Some in Hrun0 as [-> ->]. apply put_Some in Hret as ->.
    cbn [heap set_heap] in Hy.
    rewrite lookup_insert_eq in Hy. injection Hy as <-.
    eexists. split; [exact Hget|].
    split; [cbn; apply lookup_insert_eq|]. cbn.
    repeat split; auto; discriminate.
Qed.

(** The two reads after a successful on_connect of an incoming connection,
    with the states they lead to. *)
Lemma on_connect_forward_runs
    (s s' : TariServer) (downstream : ptr) (this : TariClient)
    (data : list byte) (size : Z) :
  heap s !! downstream = Some this ->
  m_isIncoming this = true ->
  on_connect downstream s = Some (true, s') ->
  0 < size <= Z.of_nat (length (m_callbackBuf s')) ->
  (Z.to_nat size <= length data)%nat ->
  exists upstream d1 u1,
    heap s' !! downstream = Some d1 /\
    heap s' !! upstream = Some u1 /\
    m_pairedClient d1 = Some upstream /\
    m_pairedClient u1 = Some downstream /\
    on_read downstream data size s'
    = Some (true,
            set_heap (<[upstream := set_sent (m_sent u1 ++ take (Z.to_nat size) data)
                                      u1]> (heap s'))
              (set_callbackBuf (memcpy (m_callbackBuf s') data size) s')) /\
    on_read upstream data size s'
    = Some (true,
            set_heap (<[downstream := set_sent (m_sent d1 ++ take (Z.to_nat size) data)
                                        d1]> (heap s'))
              (set_callbackBuf (memcpy (m_callbackBuf s') data size) s')).
Proof.
  intros Hd Hin Hon Hsz Hlen. unfold on_connect in Hon.
  rewrite (bind_eq _ _ s this s) in Hon by (apply load_run; exact Hd).
  destruct (m_owner this) eqn:Ho; cbn [negb] in Hon; [|discriminate].
  rewrite Hin in Hon.
  destruct (connect_upstream_steps _ _ _ _ Hon)
    as (u & s1 & x1 & Hget & Hx1 & Hrest).
  cbv zeta in Hrest.
  destruct (str_to_ip _ _) as [addr|]; [|destruct Hrest; discriminate].
  destruct (tcp_connect (connects s1)); [|destruct Hrest; discriminate].
  apply link_pair_inv in Hrest
    as (_ & _ & d0 & u0 & d1 & u1 & Hd0 & Hu0 & Hd1 & Hu1 & Pd & Pu & Sd & Su
        & Ed & Eu & _).
  cbn [heap set_heap set_connects] in Hd0, Hu0.
  rewrite lookup_insert_eq in Hu0. injection Hu0 as <-.
  assert (Hod0 : m_owner d0 = true).
  { destruct (decide (downstream = u)) as [->|Hne].
    - rewrite lookup_insert_eq in Hd0. injection Hd0 as <-. reflexivity.
    - rewrite lookup_insert_ne in Hd0 by auto.
      destruct (get_client_keeps_owner _ _ _ _ _ Hget Hd Ho) as (x' & Hx' & Hox').
      congruence. }
  exists u, d1, u1. split; [exact Hd1|]. split; [exact Hu1|].
  split; [exact Pd|]. split; [exact Pu|]. split.
  - eapply on_read_forward_run; eauto.
    + rewrite (pairing_blanked_owner _ _ Ed). exact Hod0.
    + rewrite (pairing_blanked_counter _ _ Eu), Sd. reflexivity.
  - eapply on_read_forward_run; eauto.
    + rewrite (pairing_blanked_owner _ _ Eu). reflexivity.
    + rewrite (pairing_blanked_counter _ _ Ed), Su. reflexivity.
Qed.

(** X9. Once on_connect of an incoming connection has returned true, bytes
    flow both ways: a read that fits on the downstream returns true and
    appends its bytes to the send path of the upstream, and a read on the
    upstream returns true and appends its bytes to the send path of the
    downstream (the upstream was given its owner at line 211, without which
    its reads would be rejected). Neither read changes another connection. *)
Theorem on_connect_enables_forwarding
    (s s' : TariServer) (downstream : ptr) (this : TariClient)
    (data : list byte) (size : Z) :
  heap s !! downstream = Some this ->
  m_isIncoming this = true ->
  on_connect downstream s = Some (true, s') ->
  0 < size <= Z.of_nat (length (m_callbackBuf s')) ->
  (Z.to_nat size <= length data)%nat ->
  exists upstream d1 u1 sd su d2 u2,
    heap s' !! downstream = Some d1 /\
    heap s' !! upstream = Some u1 /\
    m_pairedClient d1 = Some upstream /\
    m_pairedClient u1 = Some downstream /\
    on_read downstream data size s' = Some (true, sd) /\
    heap sd !! upstream = Some u2 /\
    m_sent u2 = m_sent u1 ++ take (Z.to_nat size) data /\
    (forall t, t <> upstream -> heap sd !! t = heap s' !! t) /\
    on_read upstream data size s' = Some (true, su) /\
    heap su !! downstream = Some d2 /\
    m_sent d2 = m_sent d1 ++ take (Z.to_nat size) data /\
    (forall t, t <> downstream -> heap su !! t = heap s' !! t).
Proof.
  intros Hd Hin Hon Hsz Hlen.
  destruct (on_connect_forward_runs s s' downstream this data size
              Hd Hin Hon Hsz Hlen)
    as (u & d1 & u1 & Hd1 & Hu1 & Pd & Pu & Rd & Ru).
  exists u, d1, u1. do 4 eexists.
  split; [exact Hd1|]. split; [exact Hu1|].
  split; [exact Pd|]. split; [exact Pu|].
  split; [exact Rd|]. cbn [heap set_heap].
  split; [apply lookup_insert_eq|]. split; [reflexivity|].
  split; [intros t Ht; apply lookup_insert_ne; auto|].
  split; [exact Ru|].
  split; [apply lookup_insert_eq|]. split; [reflexivity|].
  intros t Ht. apply lookup_insert_ne. auto.
Qed.




(** ** More on start *)

(** X11. The port of a bind attempt (line 183) is p exactly when p lies in
    49152..65535 and the 32-bit draw is 16384 * q + (p - 49152) for one q
    below 2^18: every port of the range and no other can be drawn, each for
    the same number of draws. *)
Theorem random_port_draws (i : nat) (p : Z) :
  random_port i = p <->
  49152 <= p <= 65535 /\
  exists q, 0 <= q < 262144 /\ rd i mod 2 ^ 32 = 16384 * q + (p - 49152).
Proof.
  unfold random_port.
  pose proof (Z.mod_pos_bound (rd i) (2 ^ 32) ltac:(lia)) as Hr.
  set (r := rd i mod 2 ^ 32) in *.
  pose proof (Z.mod_pos_bound r 16384 ltac:(lia)) as Hm.
  pose proof (Z.div_mod r 16384 ltac:(lia)) as Hdm.
  split.
  - intros <-. split; [lia|]. exists (r / 16384). split; [|lia].
    split; [apply Z.div_pos; lia|].
    apply Z.div_lt_upper_bound; [lia|]. change (2 ^ 32) with 4294967296 in Hr. lia.
  - intros (Hp & q & Hq & Er).
    assert (r mod 16384 = p - 49152); [|lia].
    rewrite Er, Z.add_comm, Z.mul_comm, Z.mod_add by lia.
    apply Z.mod_small. lia.
Qed.

(** The loop when the bind attempt [k] iterations ahead is the first to
    succeed. *)
Lemma start_loop_first_bind (n i k : nat) (s : TariServer) :
  (k < n)%nat ->
  tcp_bind (i + k) false "127.0.0.1" (random_port (i + k)) = true ->
  (forall j, (j < k)%nat ->
     tcp_bind (i + j) false "127.0.0.1" (random_port (i + j)) = false) ->
  start_loop n i s
  = set_listenPort (random_port (i + k))
      (set_binds
         (binds s ++ map (fun j => mkEndpoint false "127.0.0.1" (random_port j))
                       (seq i (S k))) s).
Proof.
  revert i k s. induction n as [|n IH]; intros i k s Hk Hb Hfail; [lia|].
  cbn [start_loop]. unfold start_listening. destruct k as [|k].
  - rewrite Nat.add_0_r in *. rewrite Hb. reflexivity.
  - pose proof (Hfail 0%nat ltac:(lia)) as H0. rewrite Nat.add_0_r in H0.
    rewrite H0. rewrite (IH (S i) k).
    + replace (S i + k)%nat with (i + S k)%nat by lia.
      cbn [binds set_binds]. rewrite <- app_assoc. destruct s; reflexivity.
    + lia.
    + replace (S i + k)%nat with (i + S k)%nat by lia. exact Hb.
    + intros j Hj. replace (S i + j)%nat with (i + S j)%nat by lia.
      apply Hfail. lia.
Qed.

(** The loop when none of its bind attempts succeeds. *)
Lemma start_loop_no_bind (n i : nat) (s : TariServer) :
  (forall j, (j < n)%nat ->
     tcp_bind (i + j) false "127.0.0.1" (random_port (i + j)) = false) ->
  start_loop n i s
  = set_binds
      (binds s ++ map (fun j => mkEndpoint false "127.0.0.1" (random_port j))
                    (seq i n)) s.
Proof.
  revert i s. induction n as [|n IH]; intros i s Hfail.
  - cbn. rewrite app_nil_r. destruct s; reflexivity.
  - cbn [start_loop]. unfold start_listening.
    pose proof (Hfail 0%nat ltac:(lia)) as H0. rewrite Nat.add_0_r in H0.
    rewrite H0, IH.
    + cbn [binds set_binds seq map]. rewrite <- app_assoc.
      destruct s; reflexivity.
    + intros j Hj. replace (S i + j)%nat with (i + S j)%nat by lia.
      apply Hfail. lia.
Qed.

(** X12. start stops at the first bind that succeeds (lines 182-186): when
    attempt k is the first to succeed, the ports tried are exactly those of
    the draws 0..k, in order, the server listens on the last of them, no
    further port is tried, and the result is whether the thread started. *)
Theorem start_stops_at_first_bind (s : TariServer) (k : nat) :
  (k < 10)%nat ->
  tcp_bind k false "127.0.0.1" (random_port k) = true ->
  (forall j, (j < k)%nat ->
     tcp_bind j false "127.0.0.1" (random_port j) = false) ->
  binds (start s).2
  = binds s ++ map (fun j => mkEndpoint false "127.0.0.1" (random_port j))
                 (seq 0 (S k)) /\
  external_listen_port (start s).2 = random_port k /\
  (start s).1 = (uv_thread_create =? 0).
Proof.
  intros Hk Hb Hfail. unfold start, external_listen_port.
  rewrite (start_loop_first_bind 10 0 k s Hk Hb Hfail).
  cbn [m_listenPort set_listenPort set_binds Nat.add].
  pose proof (random_port_range k) as Hr.
  replace (random_port k <? 0) with false by (symmetry; apply Z.ltb_ge; lia).
  destruct (uv_thread_create =? 0); cbn; auto.
Qed.

(** The loop writes the listen port and the bind log only. *)
Lemma start_loop_shape (n i : nat) (s : TariServer) :
  exists p l, start_loop n i s = set_listenPort p (set_binds l s).
Proof.
  revert i s. induction n as [|n IH]; intros i s.
  - exists (m_listenPort s), (binds s). destruct s; reflexivity.
  - cbn [start_loop]. unfold start_listening.
    destruct (tcp_bind i false "127.0.0.1" (random_port i)); [eauto|].
    destruct (IH (S i)
                (set_binds (binds s ++ [mkEndpoint false "127.0.0.1"
                                          (random_port i)]) s))
      as (p & l & ->).
    exists p, l. destruct s; reflexivity.
Qed.

(** X13. start changes nothing of the server but the listen port, the bind
    log and the thread flag, and the thread flag only on success. When all
    ten binds fail the listen port is left as it was, so the result is
    false on a server that was not listening. *)
Theorem start_frame (s : TariServer) :
  heap (start s).2 = heap s /\
  m_preallocatedClients (start s).2 = m_preallocatedClients s /\
  m_callbackBuf (start s).2 = m_callbackBuf s /\
  m_TariNodeHost (start s).2 = m_TariNodeHost s /\
  m_TariNodePort (start s).2 = m_TariNodePort s /\
  m_TariNodeIsV6 (start s).2 = m_TariNodeIsV6 s /\
  connects (start s).2 = connects s /\
  ((start s).1 = true ->
     m_loopThreadCreated (start s).2 = true /\ 0 <= m_listenPort (start s).2) /\
  ((start s).1 = false ->
     m_loopThreadCreated (start s).2 = m_loopThreadCreated s) /\
  ((forall j, (j < 10)%nat ->
      tcp_bind j false "127.0.0.1" (random_port j) = false) ->
     m_listenPort (start s).2 = m_listenPort s /\
     binds (start s).2
     = binds s ++ map (fun j => mkEndpoint false "127.0.0.1" (random_port j))
                    (seq 0 10) /\
     (m_listenPort s < 0 -> (start s).1 = false)).
Proof.
  destruct (start_loop_shape 10 0 s) as (p & l & Hshape). unfold start.
  do 7 (split; [rewrite Hshape;
                repeat match goal with
                       | |- context [if ?b then _ else _] => destruct b
                       end; reflexivity|]).
  split; [|split].
  - destruct (m_listenPort (start_loop 10 0 s) <? 0) eqn:E; [discriminate|].
    destruct (negb (uv_thread_create =? 0)); [discriminate|]. intros _.
    split; [reflexivity|]. cbn. apply Z.ltb_ge in E. exact E.
  - rewrite Hshape.
    repeat match goal with
           | |- context [if ?b then _ else _] => destruct b
           end; try reflexivity; discriminate.
  - intros Hfail. rewrite (start_loop_no_bind 10 0 s Hfail).
    cbn [m_listenPort set_binds binds].
    split; [repeat match goal with
                   | |- context [if ?b then _ else _] => destruct b
                   end; reflexivity|].
    split; [repeat match goal with
                   | |- context [if ?b then _ else _] => destruct b
                   end; reflexivity|].
    intros Hneg.
    replace (m_listenPort s <? 0) with true by (symmetry; apply Z.ltb_lt; exact Hneg).
    reflexivity.
Qed.

End ProxyFacts.

(* ===================================================================== *)
(** * The proxy on concrete runs *)

Section ProxyRuns.
Import Proxy Scenario.
#[local] Existing Instance T_ok.

(** The downstream still stores the released upstream, whose epoch moved
    from 0 to 1: the read is rejected. *)
Lemma on_read_stale_or_unpaired_rejected_witness :
  on_read (H := T_ok) 0%nat [x01; x02] 2 (stale T_ok)
  = Some (false, stale T_ok).
Proof.
  eapply (on_read_stale_or_unpaired_rejected (H := T_ok)).
  - vm_compute. reflexivity.
  - right. eexists 1%nat, _. split; [reflexivity|].
    split; [vm_compute; reflexivity | vm_compute; discriminate].
Defined.

(** After the upstream was reset, released and paired with a new incoming
    connection, a read on its former partner is rejected and the new pair is
    not touched, while a read on the new partner is forwarded. *)
Lemma on_read_after_recycling :
  on_read (H := T_ok) 0%nat [x01; x02] 2 (recycled T_ok)
    = Some (false, recycled T_ok) /\
  (m_sent <$> heap (run T_ok (on_read 2%nat [x01; x02] 2) (recycled T_ok)) !! 1%nat)
    = Some [x01; x02].
Proof. split; vm_compute; reflexivity. Qed.



(** A read larger than the 4-byte buffer forwards nothing. *)
Lemma on_read_oversize :
  exists s',
    on_read (H := T_ok) 0%nat [x01; x02; x03; x04; x05] 5 (paired T_ok)
      = Some (false, s') /\
    heap s' = heap (paired T_ok).
Proof. eexists. split; vm_compute; reflexivity. Qed.

Lemma connect_upstream_pairs_symmetrically_witness :
  exists upstream s1 s_pairing d0 u0 d1 u1,
    get_client (H := T_ok) (accepted T_ok) = Some (upstream, s1) /\
    (exists s_connect,
       connect_to_peer upstream s_connect = Some (true, s_pairing)) /\
    heap s_pairing !! 0%nat = Some d0 /\
    heap s_pairing !! upstream = Some u0 /\
    heap (paired T_ok) !! 0%nat = Some d1 /\
    heap (paired T_ok) !! upstream = Some u1 /\
    m_pairedClient d1 = Some upstream /\
    m_pairedClient u1 = Some 0%nat /\
    m_pairedClientSavedResetCounter d1 = m_resetCounter u0 /\
    m_pairedClientSavedResetCounter u1 = m_resetCounter d0 /\
    m_resetCounter d1 = m_resetCounter d0 /\
    m_resetCounter u1 = m_resetCounter u0.
Proof.
  apply (connect_upstream_pairs_symmetrically (H := T_ok) (accepted T_ok)).
  vm_compute. reflexivity.
Defined.



(** C7 (counterexample). With the draw 16383 the first bind attempt of
    start is on port 65535, which is outside [49152, 65535); the bind
    succeeds and 65535 becomes the listen port. And on a server that is
    listening on port 5000 already, start returns true although all of its
    10 bind attempts fail. *)
Lemma start_range_and_result_counterexample :
  ((start (H := T_ok) (TariServer_new 4)).1 = true /\
   binds (start (H := T_ok) (TariServer_new 4)).2
   = [mkEndpoint false "127.0.0.1" 65535] /\
   external_listen_port (start (H := T_ok) (TariServer_new 4)).2 = 65535 /\
   ~ Forall (fun e => 49152 <= e_port e < 65535)
       (binds (start (H := T_ok) (TariServer_new 4)).2)) /\
  ((start (H := T_nobind) (set_listenPort 5000 (TariServer_new 4))).1 = true /\
   length (binds (start (H := T_nobind)
                    (set_listenPort 5000 (TariServer_new 4))).2) = 10%nat /\
   forall k, (k < 10)%nat ->
     tcp_bind (Transport := T_nobind) k false "127.0.0.1"
       (random_port (H := T_nobind) k) = false).
Proof.
  split.
  - split; [vm_compute; reflexivity|]. split; [vm_compute; reflexivity|].
    split; [vm_compute; reflexivity|].
    replace (binds (start (H := T_ok) (TariServer_new 4)).2)
      with [mkEndpoint false "127.0.0.1" 65535] by (vm_compute; reflexivity).
    intros Hall. inversion Hall as [|? ? Hp _]. cbn in Hp. lia.
  - split; [vm_compute; reflexivity|]. split; [vm_compute; reflexivity|].
    intros k _. reflexivity.
Qed.

End ProxyRuns.

Section ProxyRunsRefused.
Import Proxy Scenario.
#[local] Existing Instance T_refused.

Lemma connect_upstream_failure_releases_witness :
  exists upstream s1,
    get_client (accepted T_refused) = Some (upstream, s1) /\
    m_preallocatedClients (run T_refused (connect_upstream 0%nat) (accepted T_refused))
      = upstream :: tail (m_preallocatedClients (accepted T_refused)) /\
    (connects (run T_refused (connect_upstream 0%nat) (accepted T_refused))
       <= S (connects (accepted T_refused)))%nat /\
    (str_to_ip (m_TariNodeIsV6 (accepted T_refused))
       (m_TariNodeHost (accepted T_refused)) = None ->
     connects (run T_refused (connect_upstream 0%nat) (accepted T_refused))
       = connects (accepted T_refused)) /\
    (str_to_ip (m_TariNodeIsV6 (accepted T_refused))
       (m_TariNodeHost (accepted T_refused)) <> None ->
     connects (run T_refused (connect_upstream 0%nat) (accepted T_refused))
       = S (connects (accepted T_refused)) /\
     tcp_connect (connects (accepted T_refused)) = false) /\
    (forall this, heap (accepted T_refused) !! 0%nat = Some this ->
       m_owner this = true -> m_isIncoming this = true ->
       on_connect 0%nat (accepted T_refused)
       = Some (false, run T_refused (connect_upstream 0%nat) (accepted T_refused))).
Proof.
  apply (connect_upstream_failure_releases (accepted T_refused)).
  vm_compute. reflexivity.
Defined.

End ProxyRunsRefused.

(* ===================================================================== *)
(** * The published chain parameters *)

Section ClientFacts.
Import Client.
Context `{AuxTypes} `{Proxy.Transport}.

(** C10. submit_solution returns and the client after the call is the
    client before it: the chain parameters, the proxy server with all its
    connections, and the other members are the same. *)
Theorem submit_solution_leaves_client_unchanged
    (blob : list byte) (merkle_proof : list hash) (c : MergeMiningClientTari) :
  submit_solution blob merkle_proof c = c /\
  m_chainParams (submit_solution blob merkle_proof c) = m_chainParams c /\
  m_server (submit_solution blob merkle_proof c) = m_server c.
Proof. repeat split. Qed.

Lemma get_params_false (c : MergeMiningClientTari) (out : ChainParameters) :
  (get_params c out).1 = false <->
  hash_empty (aux_id (m_chainParams c)) = true \/
  diff_empty (aux_diff (m_chainParams c)) = true.
Proof.
  unfold get_params.
  destruct (hash_empty _), (diff_empty _); cbn; intuition congruence.
Qed.

Lemma get_params_true (c : MergeMiningClientTari) (out : ChainParameters) :
  (get_params c out).1 = true -> (get_params c out).2 = m_chainParams c.
Proof.
  unfold get_params.
  destruct (hash_empty _), (diff_empty _); cbn; congruence.
Qed.

Lemma get_params_absent_keeps_out (c : MergeMiningClientTari) (out : ChainParameters) :
  (get_params c out).1 = false -> (get_params c out).2 = out.
Proof.
  unfold get_params.
  destruct (hash_empty _), (diff_empty _); cbn; congruence.
Qed.

(** ** The fetch job *)

Lemma take_std_copy (src dst : list byte) :
  take (length src) (std_copy src dst) = src.
Proof. unfold std_copy. apply take_app_length. Qed.

Lemma std_copy_full (src dst : list byte) :
  length dst = length src -> std_copy src dst = src.
Proof.
  intros Hl. unfold std_copy. rewrite drop_ge by lia. apply app_nil_r.
Qed.

(** C2. The job stores aux_id exactly when the identifier returned by the
    node has 32 bytes, and then aux_id holds the identifier; with any other
    length the client is left as it was. The statuses of the two calls do
    not matter: a node that gives the same responses with other statuses
    leads to the same outcome. *)
Theorem chain_id_stored_iff_32_bytes {Status NewBlockTemplate : Type}
    (node : BaseNode Status NewBlockTemplate) (client : MergeMiningClientTari) :
  let id :=
    (GetNewBlock node
       (GetNewBlockTemplate node (mkRequest POW_ALGOS_RANDOMX 1)).2).2 in
  let result := merge_mining_get_chain_id_job node client in
  ((exists x, In (WriteLocked_store_aux_id x) result.2) <-> length id = 32%nat) /\
  (length id = 32%nat ->
     result.1 = set_chainParams (store_aux_id id (m_chainParams client)) client /\
     take 32 (h (aux_id (m_chainParams result.1))) = id /\
     (length (h (aux_id (m_chainParams client))) = HASH_SIZE ->
      h (aux_id (m_chainParams result.1)) = id) /\
     aux_diff (m_chainParams result.1) = aux_diff (m_chainParams client)) /\
  (length id <> 32%nat ->
     result.1 = client /\
     forall out, get_params result.1 out = get_params client out) /\
  (forall (Status' : Type) (node' : BaseNode Status' NewBlockTemplate),
     (forall r, (GetNewBlockTemplate node' r).2 = (GetNewBlockTemplate node r).2) ->
     (forall t, (GetNewBlock node' t).2 = (GetNewBlock node t).2) ->
     merge_mining_get_chain_id_job node' client = result).
Proof.
  cbv zeta. unfold merge_mining_get_chain_id_job.
  split; [|split; [|split]].
  - destruct (GetNewBlockTemplate node _) as [st1 tmpl]; cbn [snd].
    destruct (GetNewBlock node tmpl) as [st2 id]; cbn [snd].
    unfold HASH_SIZE. case_bool_decide as Hl; cbn [fst snd].
    + split; [auto|]. intros _. exists id. right. left. reflexivity.
    + split; [|contradiction].
      intros (x & [E | [E | []]]); discriminate.
  - destruct (GetNewBlockTemplate node _) as [st1 tmpl]; cbn [snd].
    destruct (GetNewBlock node tmpl) as [st2 id]; cbn [snd].
    intros Hl. unfold HASH_SIZE. rewrite bool_decide_true by exact Hl.
    cbn. split; [reflexivity|]. rewrite <- Hl at 1.
    split; [apply take_std_copy|]. split; [|reflexivity].
    intros Hh. apply std_copy_full. unfold HASH_SIZE in Hh. congruence.
  - destruct (GetNewBlockTemplate node _) as [st1 tmpl]; cbn [snd].
    destruct (GetNewBlock node tmpl) as [st2 id]; cbn [snd].
    intros Hl. unfold HASH_SIZE. rewrite bool_decide_false by exact Hl.
    cbn. auto.
  - intros Status' node' H1 H2.
    specialize (H1 (mkRequest POW_ALGOS_RANDOMX 1)).
    destruct (GetNewBlockTemplate node' _) as [st1' tmpl'].
    destruct (GetNewBlockTemplate node _) as [st1 tmpl].
    cbn [snd] in H1. subst tmpl'. specialize (H2 tmpl).
    destruct (GetNewBlock node' tmpl) as [st2' id'].
    destruct (GetNewBlock node tmpl) as [st2 id].
    cbn [snd] in H2. subst id'. reflexivity.
Qed.

(** ** Readers and writers under the lock *)

Lemma reader_ok_more_readers m rl rl' i r :
  rl ⊆ rl' -> reader_ok m rl i r -> reader_ok m rl' i r.
Proof.
  intros Hsub [Hlock Hpc]. split; [|exact Hpc].
  intros Hh. pose proof (Hlock Hh) as [Hin Hseen].
  split; [apply Hsub, Hin | exact Hseen].
Qed.

Lemma reader_ok_outside m m' rl rl' i r :
  holds_read_lock (r_pc r) = false ->
  reader_ok m rl i r -> reader_ok m' rl' i r.
Proof.
  intros Hout [_ Hpc]. split; [congruence|].
  destruct (r_pc r); try discriminate; exact Hpc.
Qed.

Lemma reader_access_ok m rl i r r' :
  reader_ok m rl i r -> reader_access m r = Some r' -> reader_ok m rl i r'.
Proof.
  intros [Hlock Hpc] Hacc. unfold reader_access in Hacc.
  destruct r as [pc out out0 seen]. cbn in *.
  destruct pc; try discriminate; injection Hacc as <-;
    destruct (Hlock eq_refl) as [Hin Hseen]; subst seen; cbn in *.
  - (* aux_id.empty() *)
    destruct (hash_empty (aux_id m)) eqn:E; split; cbn; auto.
    intros c Hc. unfold get_params. cbn [r_seen r_out r_out0] in *. rewrite Hc, E, Hpc. reflexivity.
  - (* aux_diff.empty() *)
    destruct Hpc as [-> E].
    destruct (diff_empty (aux_diff m)) eqn:E'; split; cbn; auto.
    intros c Hc. unfold get_params. cbn [r_seen r_out r_out0] in *. rewrite Hc, E, E'. reflexivity.
  - split; cbn; [auto | tauto].
  - destruct Hpc as (E & E' & Eid). split; cbn; [auto|].
    intros c Hc. unfold get_params. cbn [r_seen r_out r_out0] in *. rewrite Hc, E, E', Eid.
    destruct m; reflexivity.
Qed.

Lemma step_lock_inv s s' : step s s' -> lock_inv s -> lock_inv s'.
Proof.
  intros Hstep [Hw Hr].
  destruct Hstep as [m rl rs i out Hi | m rl wl rs i r r' Hi Hacc
                    | m rl wl rs i b out out0 seen Hi | m rs j
                    | m m' rl rs j | m rl rs j]; cbn in *.
  - (* a reader takes the lock *)
    split; [done|]. intros k r Hk; cbn in Hk |- *.
    destruct (decide (k = i)) as [->|Hne].
    + rewrite lookup_insert_eq in Hk. injection Hk as <-.
      split; cbn; [split; [set_solver | reflexivity] | reflexivity].
    + rewrite lookup_insert_ne in Hk by auto.
      eapply reader_ok_more_readers; [|eauto]. set_solver.
  - (* an access under the read lock *)
    split; [exact Hw|]. intros k r0 Hk; cbn in Hk |- *.
    destruct (decide (k = i)) as [->|Hne].
    + rewrite lookup_insert_eq in Hk. injection Hk as <-.
      eapply reader_access_ok; eauto.
    + rewrite lookup_insert_ne in Hk by auto. eauto.
  - (* a reader releases the lock *)
    split; [intros Hwl; cbn in Hwl |- *; rewrite (Hw Hwl);
            apply empty_difference_L|].
    intros k r Hk; cbn in Hk |- *.
    destruct (decide (k = i)) as [->|Hne].
    + rewrite lookup_insert_eq in Hk. injection Hk as <-.
      match goal with
      | Hi : rs !! i = Some _ |- _ => pose proof (Hr i _ Hi) as [_ Hres]
      end.
      split; [discriminate | exact Hres].
    + rewrite lookup_insert_ne in Hk by auto.
      destruct (Hr k r Hk) as [Hlock Hpc]. split; [|exact Hpc].
      intros Hh. pose proof (Hlock Hh) as [Hin Hseen].
      split; [|exact Hseen].
      apply elem_of_difference. split; [exact Hin|].
      rewrite elem_of_singleton. exact Hne.
  - (* a writer takes the lock *)
    split; [reflexivity | exact Hr].
  - (* a store under the write lock *)
    split; [exact Hw|]. intros k r Hk; cbn in Hk |- *. specialize (Hr k r Hk).
    destruct (holds_read_lock (r_pc r)) eqn:Eh.
    + destruct Hr as [Hlock _]. destruct (Hlock Eh) as [Hin _].
      rewrite (Hw ltac:(discriminate)) in Hin. set_solver.
    + eapply reader_ok_outside; eauto.
  - (* a writer releases the lock *)
    split; [done | exact Hr].
Qed.

Lemma initial_lock_inv s : initial s -> lock_inv s.
Proof.
  intros (Hrl & Hwl & Hrs). split; [congruence|].
  intros i r Hi. destruct (Hrs i r Hi) as (Hpc & _).
  split; rewrite Hpc; [discriminate | exact I].
Qed.

Lemma reachable_lock_inv s : reachable s -> lock_inv s.
Proof.
  intros (s0 & Hinit & Hsteps). apply initial_lock_inv in Hinit.
  induction Hsteps; eauto using step_lock_inv.
Qed.

(** C1. In every interleaving of readers and writers, a reader that holds
    the read lock sees m_chainParams unchanged since it took the lock, and a
    call of get_params that has returned gives exactly what get_params
    computes on that one snapshot: false if and only if aux_id or aux_diff
    of the snapshot is empty, and otherwise true with out_params equal to
    the whole snapshot. *)
Theorem get_params_consistent_snapshot (s : sys) (i : nat) (r : reader) :
  reachable s ->
  readers s !! i = Some r ->
  (holds_read_lock (r_pc r) = true -> shared s = r_seen r /\ wlock s = None) /\
  (forall b, r_pc r = RReturned b ->
     result_of r b /\
     (b = false <->
        hash_empty (aux_id (r_seen r)) = true \/
        diff_empty (aux_diff (r_seen r)) = true) /\
     (b = true -> r_out r = r_seen r) /\
     (b = false -> r_out r = r_out0 r)).
Proof.
  intros Hreach Hi.
  destruct (reachable_lock_inv s Hreach) as [Hw Hr].
  destruct (Hr i r Hi) as [Hlock Hpc]. split.
  - intros Hh. destruct (Hlock Hh) as [Hin Hseen]. split; [auto|].
    destruct (wlock s) eqn:E; [|reflexivity].
    rewrite (Hw ltac:(discriminate)) in Hin. set_solver.
  - intros b Eb. rewrite Eb in Hpc. split; [exact Hpc|].
    pose (c := mkClient (r_seen r) EmptyString EmptyString
                 (Proxy.TariServer_new 0)).
    specialize (Hpc c eq_refl).
    pose proof (get_params_false c (r_out0 r)) as Hf.
    pose proof (get_params_true c (r_out0 r)) as Ht.
    pose proof (get_params_absent_keeps_out c (r_out0 r)) as Ha.
    rewrite Hpc in Hf, Ht, Ha. cbn in *. auto.
Qed.

(** ** More on the fetch job *)

Lemma job_result {Status NewBlockTemplate : Type}
    (node : BaseNode Status NewBlockTemplate) (client : MergeMiningClientTari) :
  let id :=
    (GetNewBlock node
       (GetNewBlockTemplate node (mkRequest POW_ALGOS_RANDOMX 1)).2).2 in
  (merge_mining_get_chain_id_job node client).1
  = if bool_decide (length id = HASH_SIZE)
    then set_chainParams (store_aux_id id (m_chainParams client)) client
    else client.
Proof.
  cbv zeta. unfold merge_mining_get_chain_id_job.
  destruct (GetNewBlockTemplate node _) as [st1 tmpl]; cbn [snd].
  destruct (GetNewBlock node tmpl) as [st2 id]; cbn [snd].
  case_bool_decide; reflexivity.
Qed.

Lemma std_copy_twice (a b dst : list byte) :
  length a = length b -> std_copy b (std_copy a dst) = std_copy b dst.
Proof.
  intros Hl. unfold std_copy. f_equal.
  rewrite <- Hl, drop_app_length. reflexivity.
Qed.

Lemma length_std_copy (src dst : list byte) :
  (length src <= length dst)%nat -> length (std_copy src dst) = length dst.
Proof.
  intros Hl. unfold std_copy. rewrite length_app, length_drop. lia.
Qed.

(** X14. The fetch job alone never publishes: it stores aux_id and nothing
    in this file stores aux_diff, so as long as aux_diff is empty get_params
    keeps returning false after the job, whatever the node answered, and
    leaves out_params alone. *)
Theorem job_alone_never_publishes {Status NewBlockTemplate : Type}
    (node : BaseNode Status NewBlockTemplate) (client : MergeMiningClientTari)
    (out : ChainParameters) :
  diff_empty (aux_diff (m_chainParams client)) = true ->
  get_params (merge_mining_get_chain_id_job node client).1 out = (false, out).
Proof.
  intros Hd. pose proof (job_result node client) as E. cbv zeta in E.
  rewrite E. unfold get_params.
  case_bool_decide; cbn; rewrite Hd, orb_true_r; reflexivity.
Qed.

(** X15. The job touches aux_id only: the proxy server, the wallet, the
    host string and aux_diff are as before, and the copy of line 152 stays
    inside the array, whose length is unchanged. *)
Theorem job_touches_aux_id_only {Status NewBlockTemplate : Type}
    (node : BaseNode Status NewBlockTemplate) (client : MergeMiningClientTari) :
  let client' := (merge_mining_get_chain_id_job node client).1 in
  m_server client' = m_server client /\
  m_auxWallet client' = m_auxWallet client /\
  m_hostStr client' = m_hostStr client /\
  aux_diff (m_chainParams client') = aux_diff (m_chainParams client) /\
  (length (h (aux_id (m_chainParams client))) = HASH_SIZE ->
   length (h (aux_id (m_chainParams client'))) = HASH_SIZE).
Proof.
  pose proof (job_result node client) as E. cbv zeta in E |- *.
  rewrite E. case_bool_decide as Hl; cbn; repeat split; auto.
  intros Hh. rewrite length_std_copy; [exact Hh | lia].
Qed.

(** X16. The last valid identifier wins: after two runs of the job the
    client is as after the second run alone when the second identifier has
    32 bytes, and as after the first run alone when it has not. *)
Theorem job_last_valid_identifier_wins {Status NewBlockTemplate : Type}
    (node1 node2 : BaseNode Status NewBlockTemplate)
    (client : MergeMiningClientTari) :
  let id2 :=
    (GetNewBlock node2
       (GetNewBlockTemplate node2 (mkRequest POW_ALGOS_RANDOMX 1)).2).2 in
  let once := (merge_mining_get_chain_id_job node1 client).1 in
  let twice := (merge_mining_get_chain_id_job node2 once).1 in
  (length id2 = HASH_SIZE ->
     twice = (merge_mining_get_chain_id_job node2 client).1) /\
  (length id2 <> HASH_SIZE -> twice = once).
Proof.
  cbv zeta.
  pose proof (job_result node2 client) as E2.
  pose proof (job_result node2 (merge_mining_get_chain_id_job node1 client).1) as E21.
  pose proof (job_result node1 client) as E1.
  cbv zeta in E1, E2, E21. rewrite E21, E2, E1. split; intros Hl2.
  - rewrite !(bool_decide_true _ Hl2).
    case_bool_decide as Hl1; [|reflexivity].
    unfold set_chainParams, store_aux_id. cbn.
    rewrite std_copy_twice by congruence. reflexivity.
  - rewrite !(bool_decide_false _ Hl2). reflexivity.
Qed.

(** X17. The job completes a publication that only waited for aux_id: when
    aux_diff is set and the node answers with a 32-byte identifier that is
    not empty, get_params returns true afterwards and the parameters it
    gives carry that identifier and the difficulty as it was. *)
Theorem job_publishes_when_diff_is_set {Status NewBlockTemplate : Type}
    (node : BaseNode Status NewBlockTemplate) (client : MergeMiningClientTari)
    (out : ChainParameters) :
  let id :=
    (GetNewBlock node
       (GetNewBlockTemplate node (mkRequest POW_ALGOS_RANDOMX 1)).2).2 in
  diff_empty (aux_diff (m_chainParams client)) = false ->
  length (h (aux_id (m_chainParams client))) = HASH_SIZE ->
  length id = HASH_SIZE ->
  bytes_empty id = false ->
  get_params (merge_mining_get_chain_id_job node client).1 out
  = (true, mkChainParameters (mkHash id) (aux_diff (m_chainParams client))).
Proof.
  cbv zeta. intros Hd Hh Hl He.
  pose proof (job_result node client) as E. cbv zeta in E.
  rewrite E. case_bool_decide; [|contradiction].
  unfold get_params, hash_empty, set_chainParams, store_aux_id.
  cbn [m_chainParams aux_id aux_diff h].
  rewrite std_copy_full by congruence. rewrite He, Hd. reflexivity.
Qed.

End ClientFacts.

Section ClientRuns.
Import Client Scenario.
#[local] Existing Instance spec_types.
#[local] Existing Instance T_ok.

(** An identifier of 31 bytes leaves the client as constructed, and
    get_params keeps returning false. *)
Lemma chain_id_stored_iff_32_bytes_witness :
  (merge_mining_get_chain_id_job (node true true (replicate 31 x2a)) client_unset).1
    = client_unset /\
  forall out,
    get_params
      (merge_mining_get_chain_id_job (node true true (replicate 31 x2a)) client_unset).1
      out
    = get_params client_unset out.
Proof.
  apply (chain_id_stored_iff_32_bytes (node true true (replicate 31 x2a)) client_unset).
  vm_compute. discriminate.
Defined.

(** Identifiers of 32 and of 33 bytes, and failed statuses. *)
Lemma chain_id_job_runs :
  h (aux_id (m_chainParams
       (merge_mining_get_chain_id_job (node true true (replicate 32 x2a))
          client_unset).1)) = replicate 32 x2a /\
  merge_mining_get_chain_id_job (node false false (replicate 32 x2a)) client_unset
    = merge_mining_get_chain_id_job (node true true (replicate 32 x2a)) client_unset /\
  merge_mining_get_chain_id_job (node true true (replicate 33 x2a)) client_unset
    = (client_unset,
       [LogInfo_chain_id (replicate 33 x2a); LogErr_invalid_size 33]).
Proof. repeat split. Qed.

Lemma after_read_reachable : reachable after_read.
Proof.
  exists before_read. split.
  - split; [reflexivity|]. split; [reflexivity|].
    intros i r Hi. unfold before_read in Hi. cbn in Hi.
    apply lookup_singleton_Some in Hi as [_ <-]. auto.
  - unfold before_read.
    eapply rtc_l; [eapply (step_read_lock _ _ _ 0%nat); reflexivity|].
    do 4 (eapply rtc_l;
          [eapply (step_read_access _ _ _ _ 0%nat);
             [apply lookup_insert_eq | reflexivity]|]).
    eapply rtc_l; [eapply (step_read_unlock _ _ _ _ 0%nat); apply lookup_insert_eq|].
    match goal with
    | |- rtc step ?a ?b => replace a with b by (vm_compute; reflexivity)
    end.
    apply rtc_refl.
Qed.

Lemma get_params_consistent_snapshot_witness :
  (holds_read_lock (RReturned true) = true ->
     shared after_read = params_set /\ wlock after_read = None) /\
  (forall b, RReturned true = RReturned b ->
     result_of (mkReader (RReturned true) params_set params_unset params_set) b /\
     (b = false <->
        hash_empty (aux_id params_set) = true \/
        diff_empty (aux_diff params_set) = true) /\
     (b = true -> params_set = params_set) /\
     (b = false -> params_set = params_unset)).
Proof.
  apply (get_params_consistent_snapshot after_read 0%nat
           (mkReader (RReturned true) params_set params_unset params_set)).
  - exact after_read_reachable.
  - reflexivity.
Defined.

End ClientRuns.

(* ===================================================================== *)
(** * The constructor *)

Section ConstructionFacts.
Import Proxy Client Construction.
Context `{AuxTypes} `{Transport}.

Lemma set_TariNode_twice a b c x y z (s : TariServer) :
  set_TariNode a b c (set_TariNode x y z s) = set_TariNode a b c s.
Proof. reflexivity. Qed.

Lemma set_TariNode_id (s : TariServer) :
  set_TariNode (m_TariNodeIsV6 s) (m_TariNodeHost s) (m_TariNodePort s) s = s.
Proof. destruct s; reflexivity. Qed.

(** The callbacks write the three node fields only. *)
Lemma parse_address_list_shape parse host m_dns resolve_host (s : TariServer) :
  exists a b c,
    parse_address_list parse host (address_callback m_dns resolve_host) s
    = set_TariNode a b c s.
Proof.
  unfold parse_address_list. generalize (parse host). intros l. revert s.
  induction l as [|cand l IH]; intros s.
  - exists (m_TariNodeIsV6 s), (m_TariNodeHost s), (m_TariNodePort s).
    cbn. symmetry. apply set_TariNode_id.
  - cbn [fold_left].
    assert (E : exists x y z,
               address_callback m_dns resolve_host cand s = set_TariNode x y z s).
    { unfold address_callback. destruct (negb m_dns); [eauto|].
      destruct (resolve_host _ _) as [[ip v6]|]; [eauto|].
      eexists _, _, _. symmetry. apply set_TariNode_id. }
    destruct E as (x & y & z & ->).
    destruct (IH (set_TariNode x y z s)) as (a & b & c & ->). eauto.
Qed.

(** The last accepted candidate, in terms of the three fields written. *)
Lemma parse_address_list_last
    (parse : string -> list candidate) (host : string) (m_dns : bool)
    (resolve_host : string -> bool -> option (string * bool))
    (s : TariServer) :
  (forall pre cand post ip is_v6,
     parse host = pre ++ cand :: post ->
     (if m_dns then resolve_host (c_ip cand) (c_is_v6 cand) = Some (ip, is_v6)
      else ip = c_ip cand /\ is_v6 = c_is_v6 cand) ->
     Forall (fun c => m_dns = true /\ resolve_host (c_ip c) (c_is_v6 c) = None)
       post ->
     parse_address_list parse host (address_callback m_dns resolve_host) s
     = set_TariNode is_v6 ip (c_port cand) s) /\
  (Forall (fun c => m_dns = true /\ resolve_host (c_ip c) (c_is_v6 c) = None)
     (parse host) ->
   parse_address_list parse host (address_callback m_dns resolve_host) s = s).
Proof.
  assert (Hnone : forall l s0,
            Forall (fun c => m_dns = true /\ resolve_host (c_ip c) (c_is_v6 c) = None) l ->
            fold_left (fun s1 cand => address_callback m_dns resolve_host cand s1) l s0
            = s0).
  { induction l as [|c l IH]; intros s0 Hall; [reflexivity|].
    inversion Hall as [|? ? Hc Hl]; subst. destruct Hc as [Hd Hr].
    cbn [fold_left].
    assert (E : address_callback m_dns resolve_host c s0 = s0)
      by (unfold address_callback; rewrite Hd, Hr; reflexivity).
    rewrite E. apply IH, Hl. }
  split.
  - intros pre cand post ip is_v6 Hparse Hacc Hrej.
    unfold parse_address_list. rewrite Hparse, fold_left_app. cbn [fold_left].
    rewrite Hnone by exact Hrej.
    destruct (parse_address_list_shape (fun _ => pre) host m_dns resolve_host s)
      as (a & b & c & E).
    unfold parse_address_list in E. rewrite E.
    unfold address_callback. destruct m_dns; cbn [negb].
    + rewrite Hacc. reflexivity.
    + destruct Hacc as [-> ->]. reflexivity.
  - intros Hall. unfold parse_address_list. apply Hnone, Hall.
Qed.

(** X18. Of the candidates handed to the callback of lines 54-61, the last
    accepted one is kept: after the call the node address of the server is
    the resolved ip and family of that candidate, with the candidate's port,
    whatever the candidates before it stored. A candidate is accepted when
    resolution is off or when it resolves. When no candidate is accepted the
    node address is left as it was, and in every case the callbacks write
    no other field of the server. *)
Theorem last_accepted_candidate_is_kept
    (parse : string -> list candidate) (host : string) (m_dns : bool)
    (resolve_host : string -> bool -> option (string * bool))
    (s : TariServer) :
  let s' :=
    parse_address_list parse host (address_callback m_dns resolve_host) s in
  (forall pre cand post ip is_v6,
     parse host = pre ++ cand :: post ->
     (if m_dns then resolve_host (c_ip cand) (c_is_v6 cand) = Some (ip, is_v6)
      else ip = c_ip cand /\ is_v6 = c_is_v6 cand) ->
     Forall (fun c => m_dns = true /\ resolve_host (c_ip c) (c_is_v6 c) = None)
       post ->
     m_TariNodeIsV6 s' = is_v6 /\
     m_TariNodeHost s' = ip /\
     m_TariNodePort s' = c_port cand) /\
  (Forall (fun c => m_dns = true /\ resolve_host (c_ip c) (c_is_v6 c) = None)
     (parse host) ->
   m_TariNodeIsV6 s' = m_TariNodeIsV6 s /\
   m_TariNodeHost s' = m_TariNodeHost s /\
   m_TariNodePort s' = m_TariNodePort s) /\
  (m_listenPort s' = m_listenPort s /\
   m_loopThreadCreated s' = m_loopThreadCreated s /\
   m_callbackBuf s' = m_callbackBuf s /\
   m_preallocatedClients s' = m_preallocatedClients s /\
   heap s' = heap s /\
   connects s' = connects s /\
   binds s' = binds s).
Proof.
  cbv zeta.
  destruct (parse_address_list_last parse host m_dns resolve_host s)
    as [Hlast Hnone].
  split; [|split].
  - intros pre cand post ip is_v6 Hparse Hacc Hrej.
    rewrite (Hlast pre cand post ip is_v6 Hparse Hacc Hrej).
    repeat split.
  - intros Hall. rewrite (Hnone Hall). repeat split.
  - destruct (parse_address_list_shape parse host m_dns resolve_host s)
      as (a & b & c & ->).
    repeat split.
Qed.

(** ** What the other threads leave alone *)

Lemma heap_only_settings (s s' : TariServer) :
  heap_only s s' -> settings s' = settings s.
Proof. intros ->. reflexivity. Qed.

Lemma reset_settings c (s : TariServer) u s' :
  reset c s = Some (u, s') -> settings s' = settings s.
Proof. intros [Hho _]%reset_inv. apply heap_only_settings, Hho. Qed.

Lemma get_client_settings (s : TariServer) u s' :
  get_client s = Some (u, s') -> settings s' = settings s.
Proof. intros E%get_client_shape. rewrite E. reflexivity. Qed.

Lemma return_client_settings c (s : TariServer) u s' :
  return_client c s = Some (u, s') -> settings s' = settings s.
Proof. intros E%return_client_shape. rewrite E. reflexivity. Qed.

Lemma connect_upstream_settings d (s : TariServer) r s' :
  connect_upstream d s = Some (r, s') -> settings s' = settings s.
Proof.
  intros Hc.
  destruct (connect_upstream_steps _ _ _ _ Hc)
    as (u & s1 & x1 & Hget & Hx1 & Hrest).
  pose proof (get_client_settings _ _ _ Hget) as E1. cbv zeta in Hrest.
  rewrite <- E1.
  destruct (str_to_ip _ _) as [addr|].
  - destruct (tcp_connect (connects s1)).
    + apply link_pair_inv in Hrest as (_ & Hho & _).
      apply heap_only_settings in Hho. rewrite Hho. reflexivity.
    + destruct Hrest as [_ Hret].
      apply return_client_settings in Hret. rewrite Hret. reflexivity.
  - destruct Hrest as [_ Hret].
    apply return_client_settings in Hret. rewrite Hret. reflexivity.
Qed.

Lemma on_connect_settings c (s : TariServer) r s' :
  on_connect c s = Some (r, s') -> settings s' = settings s.
Proof.
  unfold on_connect. intros Hc.
  apply bind_Some in Hc as (this & s0 & Hl & Hc).
  apply load_Some in Hl as [_ ->].
  destruct (negb (m_owner this)); [apply ret_Some in Hc as [_ ->]; reflexivity|].
  destruct (m_isIncoming this);
    [eapply connect_upstream_settings; eauto
    | apply ret_Some in Hc as [_ ->]; reflexivity].
Qed.

Lemma on_read_settings c data size (s : TariServer) r s' :
  on_read c data size s = Some (r, s') -> settings s' = settings s.
Proof.
  unfold on_read. intros Hr.
  apply bind_Some in Hr as (this & s0 & Hl & Hr).
  apply load_Some in Hl as [_ ->].
  destruct (negb (m_owner this)); [apply ret_Some in Hr as [_ ->]; reflexivity|].
  apply bind_Some in Hr as (paired & s0 & Hp & Hr).
  apply is_paired_state in Hp as ->.
  destruct (negb paired); [apply ret_Some in Hr as [_ ->]; reflexivity|].
  apply bind_Some in Hr as (p & s0 & Hp & Hr).
  apply pairedClient_Some in Hp as (? & _ & _ & ->).
  unfold send in Hr.
  apply bind_Some in Hr as (sg & s0 & Hg & Hr).
  apply get_Some in Hg as [-> ->].
  destruct (on_read_callback data size _ _) as [n buf].
  apply bind_Some in Hr as (u & s0 & Hput & Hr).
  apply put_Some in Hput as ->.
  destruct (n =? 0); [apply ret_Some in Hr as [_ ->]; reflexivity|].
  apply bind_Some in Hr as (u' & s0 & Hm & Hr).
  apply modify_Some in Hm as (partner & _ & ->).
  apply ret_Some in Hr as [_ ->]. reflexivity.
Qed.

(** No call of the loop thread writes the settings of the server. *)
Lemma run_call_settings call (s : TariServer) u s' :
  run_call call s = Some (u, s') -> settings s' = settings s.
Proof.
  destruct call; cbn [run_call]; intros Hr.
  - apply bind_Some in Hr as (c & s0 & Ha & Hr).
    apply ret_Some in Hr as [_ ->]. unfold accept in Ha.
    apply bind_Some in Ha as (c' & s1 & Hg & Ha).
    apply bind_Some in Ha as (u' & s2 & Hm & Ha).
    apply ret_Some in Ha as [_ ->].
    apply modify_Some in Hm as (x & _ & ->).
    apply get_client_settings in Hg. rewrite <- Hg. reflexivity.
  - apply bind_Some in Hr as (r & s0 & Hc & Hr).
    apply ret_Some in Hr as [_ ->]. eapply on_connect_settings; eauto.
  - apply bind_Some in Hr as (r & s0 & Hc & Hr).
    apply ret_Some in Hr as [_ ->]. eapply on_read_settings; eauto.
  - eapply reset_settings; eauto.
  - unfold close in Hr. apply modify_Some in Hr as (x & _ & ->). reflexivity.
  - apply bind_Some in Hr as (r & s0 & Hc & Hr).
    apply ret_Some in Hr as [_ ->]. eapply get_client_settings; eauto.
  - eapply return_client_settings; eauto.
  - apply bind_Some in Hr as (r & s0 & Hc & Hr).
    apply ret_Some in Hr as [_ ->]. eapply connect_upstream_settings; eauto.
Qed.

(** What the steps of the other threads keep: the strings, the settings of
    the server, the difficulty and the size of the identifier, and the
    parameters themselves as long as the fetch job is on the queue. *)
Lemma concurrently_keeps {Status NewBlockTemplate : Type}
    (zero_diff : difficulty_type) (client0 : MergeMiningClientTari)
    (client : MergeMiningClientTari) (queue : list work) :
  m_chainParams client0 = ChainParameters_zero zero_diff ->
  rtc (concurrently (Status := Status) (NewBlockTemplate := NewBlockTemplate))
    (client0, [Work_get_chain_id]) (client, queue) ->
  m_hostStr client = m_hostStr client0 /\
  m_auxWallet client = m_auxWallet client0 /\
  settings (m_server client) = settings (m_server client0) /\
  aux_diff (m_chainParams client) = zero_diff /\
  length (h (aux_id (m_chainParams client))) = HASH_SIZE /\
  (queue = [Work_get_chain_id] /\
   m_chainParams client = ChainParameters_zero zero_diff
   \/ queue = []).
Proof.
  intros Hzero Hrtc.
  refine (rtc_ind_r
            (fun st : MergeMiningClientTari * list work =>
               m_hostStr st.1 = m_hostStr client0 /\
               m_auxWallet st.1 = m_auxWallet client0 /\
               settings (m_server st.1) = settings (m_server client0) /\
               aux_diff (m_chainParams st.1) = zero_diff /\
               length (h (aux_id (m_chainParams st.1))) = HASH_SIZE /\
               (st.2 = [Work_get_chain_id] /\
                m_chainParams st.1 = ChainParameters_zero zero_diff
                \/ st.2 = []))
            (client0, [Work_get_chain_id]) _ _ (client, queue) Hrtc);
    clear client queue Hrtc.
  - cbn [fst snd]. rewrite Hzero. repeat split; auto.
  - intros [client1 queue1] [client queue] _ Hstep (Hh & Hw & Hs & Hd & Hl & Hq).
    cbn [fst snd] in *.
    inversion Hstep as [node c q E1 E2 | call c q s' Hrun E1 E2]; subst.
    + (* the fetch job *)
      destruct Hq as [[[= ->] Hp] | [=]].
      unfold merge_mining_get_chain_id_job.
      destruct (GetNewBlockTemplate node _) as [status response].
      destruct (GetNewBlock node response) as [status' id].
      case_bool_decide as Hid; cbn [fst];
        cbn [m_hostStr m_auxWallet m_server m_chainParams set_chainParams
             store_aux_id aux_diff aux_id h].
      * repeat split; auto.
        rewrite length_std_copy; [exact Hl | rewrite Hl, Hid; reflexivity].
      * repeat split; auto.
    + (* a call of the loop thread *)
      cbn [m_hostStr m_auxWallet m_server m_chainParams set_server].
      apply run_call_settings in Hrun. rewrite Hrun.
      repeat split; auto.
Qed.

(** X19. After a constructor that did not throw, whatever the loop thread
    and the queued fetch job have done in the meantime: the host string
    started with the prefix, exactly one fetch job was queued, the node
    address is non-empty with a port that is neither 0 nor above 65535, the
    proxy listens on a port of 49152..65535 that was bound on 127.0.0.1
    within at most ten attempts, the event-loop thread was created, the
    difficulty is the value-initialised one, the identifier has 32 bytes,
    and the parameters are the value-initialised ones as long as the fetch
    job is on the queue. *)
Theorem constructed_client_is_ready {Status NewBlockTemplate : Type}
    (TARI_PREFIX : string) (m_dns : bool)
    (resolve_host : string -> bool -> option (string * bool))
    (parse : string -> list candidate) (BUF_SIZE : nat)
    (zero_diff : difficulty_type) (host wallet : string)
    (client0 : MergeMiningClientTari) (queue0 : list work) :
  MergeMiningClientTari_new TARI_PREFIX m_dns resolve_host parse BUF_SIZE
    zero_diff host wallet = Returns (client0, queue0) ->
  (exists rest, host = (TARI_PREFIX ++ rest)%string) /\
  queue0 = [Work_get_chain_id] /\
  forall client queue,
    rtc (concurrently (Status := Status) (NewBlockTemplate := NewBlockTemplate))
      (client0, queue0) (client, queue) ->
    m_hostStr client = host /\
    m_auxWallet client = wallet /\
    m_TariNodeHost (m_server client) <> EmptyString /\
    m_TariNodePort (m_server client) <> 0 /\
    m_TariNodePort (m_server client) < 65536 /\
    49152 <= external_listen_port (m_server client) <= 65535 /\
    In (mkEndpoint false "127.0.0.1" (external_listen_port (m_server client)))
      (binds (m_server client)) /\
    (length (binds (m_server client)) <= 10)%nat /\
    m_loopThreadCreated (m_server client) = true /\
    aux_diff (m_chainParams client) = zero_diff /\
    length (h (aux_id (m_chainParams client))) = HASH_SIZE /\
    (queue = [Work_get_chain_id] /\
     m_chainParams client = ChainParameters_zero zero_diff
     \/ queue = []).
Proof.
  unfold MergeMiningClientTari_new. intros Hnew.
  destruct (HostString.normalize_host TARI_PREFIX host) as [remainder| |] eqn:Hn;
    try discriminate.
  assert (Hprefix : exists rest, host = (TARI_PREFIX ++ rest)%string).
  { unfold HostString.normalize_host in Hn.
    case_bool_decide as Hf; [|discriminate].
    apply find_zero_iff. exact Hf. }
  destruct (parse_address_list_shape parse remainder m_dns resolve_host
              (TariServer_new BUF_SIZE)) as (a & b & c & Eparse).
  rewrite Eparse in Hnew. cbn [m_TariNodeHost m_TariNodePort set_TariNode] in Hnew.
  destruct (HostString.empty b) eqn:Eb; [discriminate|].
  destruct (c =? 0) eqn:E0; [discriminate|].
  destruct (c >=? 65536) eqn:E1; [discriminate|]. cbn [orb] in Hnew.
  set (s0 := set_TariNode a b c (TariServer_new BUF_SIZE)) in *.
  unfold start in Hnew.
  destruct (start_loop_spec 10 0 s0)
    as (attempts & Hb & Hlen & _ & _ & _ & Hcase).
  destruct (start_loop_shape 10 0 s0) as (p & l & Hshape).
  remember (start_loop 10 0 s0) as sl eqn:Esl. clear Esl.
  destruct (m_listenPort sl <? 0) eqn:El; [discriminate|].
  destruct (negb (uv_thread_create =? 0)); [discriminate|].
  cbn [negb] in Hnew. injection Hnew as <- <-.
  apply Z.ltb_ge in El.
  destruct Hcase as [[Hneg _] | (k & _ & _ & Hport & Hin)];
    [rewrite Hneg in El; cbn in El; lia|].
  pose proof (random_port_range (0 + k)) as Hr.
  split; [exact Hprefix|]. split; [reflexivity|].
  intros client queue Hrtc.
  destruct (concurrently_keeps zero_diff
              (mkClient (ChainParameters_zero zero_diff) wallet host
                 (set_loopThreadCreated true sl))
              client queue eq_refl Hrtc)
    as (Hh & Hw & Hs & Hd & Hl & Hq).
  cbn [m_hostStr m_auxWallet m_server] in Hh, Hw, Hs.
  unfold settings in Hs.
  cbn [m_TariNodeIsV6 m_TariNodeHost m_TariNodePort m_listenPort
       m_loopThreadCreated binds set_loopThreadCreated] in Hs.
  injection Hs as Hs1 Hs2 Hs3 Hs4 Hs5 Hs6.
  unfold external_listen_port.
  rewrite Hs2, Hs3, Hs4, Hs5, Hs6, Hb, Hport. rewrite Hshape. cbn.
  split; [exact Hh|]. split; [exact Hw|].
  split; [intros ->; discriminate|].
  split; [apply Z.eqb_neq; exact E0|].
  split; [rewrite Z.geb_leb in E1; apply Z.leb_gt in E1; exact E1|].
  split; [exact Hr|]. split; [exact Hin|].
  split; [exact Hlen|]. auto.
Qed.

End ConstructionFacts.

(* ===================================================================== *)
(** * Further concrete runs *)

Section MoreRuns.
Import Proxy Client Construction Scenario.
#[local] Existing Instance spec_types.
#[local] Existing Instance T_ok.

Lemma on_read_callback_within_buffer_witness :
  let n := (on_read_callback [x01; x02; x03] 2 [x00; x00; x00; x00]
              (Z.of_nat (length [x00; x00; x00; x00]))).1 in
  let buf' := (on_read_callback [x01; x02; x03] 2 [x00; x00; x00; x00]
                 (Z.of_nat (length [x00; x00; x00; x00]))).2 in
  0 <= n <= Z.of_nat (length [x00; x00; x00; x00]) /\
  (n = 2 \/ (n = 0 /\ 2 > Z.of_nat (length [x00; x00; x00; x00]) /\
             buf' = [x00; x00; x00; x00])) /\
  length buf' = length [x00; x00; x00; x00] /\
  take (Z.to_nat n) buf' = take (Z.to_nat n) [x01; x02; x03] /\
  drop (Z.to_nat n) buf' = drop (Z.to_nat n) [x00; x00; x00; x00].
Proof.
  apply (on_read_callback_within_buffer [x01; x02; x03] [x00; x00; x00; x00] 2).
  - lia.
  - vm_compute. lia.
Defined.

Lemma new_connection_is_reset_witness :
  exists c s1,
    get_client (accepted T_ok) = Some (c, s1) /\
    heap (accepted T_ok) !! c = None /\
    heap s1 !! c = Some TariClient_new /\
    (forall t, t <> c -> heap s1 !! t = heap (accepted T_ok) !! t) /\
    reset c s1 = Some (tt, s1) /\
    forall data size, on_read c data size s1 = Some (false, s1).
Proof.
  apply (new_connection_is_reset (accepted T_ok)). reflexivity.
Defined.

Lemma reset_unpairs_both_ends_witness :
  exists this partner,
    heap (paired T_ok) !! 0%nat = Some this /\
    heap (paired T_ok) !! 1%nat = Some partner /\
    1%nat <> 0%nat /\
    heap (run T_ok (reset 0%nat) (paired T_ok)) !! 0%nat
      = Some (set_pairedClientSavedResetCounter UINT32_MAX
                (set_pairedClient None this)) /\
    heap (run T_ok (reset 0%nat) (paired T_ok)) !! 1%nat
      = Some (set_isClosing true (set_pairedClient None partner)) /\
    (forall t, t <> 0%nat -> t <> 1%nat ->
       heap (run T_ok (reset 0%nat) (paired T_ok)) !! t = heap (paired T_ok) !! t) /\
    (forall data size,
       on_read 0%nat data size (run T_ok (reset 0%nat) (paired T_ok))
         = Some (false, run T_ok (reset 0%nat) (paired T_ok)) /\
       on_read 1%nat data size (run T_ok (reset 0%nat) (paired T_ok))
         = Some (false, run T_ok (reset 0%nat) (paired T_ok))) /\
    (m_pairedClient <$> heap (run T_ok (reset 0%nat) (paired T_ok)) !! 0%nat)
      = Some None /\
    (m_pairedClientSavedResetCounter
       <$> heap (run T_ok (reset 0%nat) (paired T_ok)) !! 0%nat)
      = Some UINT32_MAX /\
    (m_resetCounter <$> heap (run T_ok (reset 0%nat) (paired T_ok)) !! 0%nat)
      = Some (m_resetCounter this) /\
    (m_pairedClient <$> heap (run T_ok (reset 0%nat) (paired T_ok)) !! 1%nat)
      = Some None /\
    (m_isClosing <$> heap (run T_ok (reset 0%nat) (paired T_ok)) !! 1%nat)
      = Some true /\
    (m_resetCounter <$> heap (run T_ok (reset 0%nat) (paired T_ok)) !! 1%nat)
      = Some (m_resetCounter partner) /\
    (m_pairedClientSavedResetCounter
       <$> heap (run T_ok (reset 0%nat) (paired T_ok)) !! 1%nat)
      = Some (m_pairedClientSavedResetCounter partner) /\
    (m_sent <$> heap (run T_ok (reset 0%nat) (paired T_ok)) !! 1%nat)
      = Some (m_sent partner).
Proof.
  eexists _, _. split; [vm_compute; reflexivity|].
  split; [vm_compute; reflexivity|].
  eapply (reset_unpairs_both_ends (paired T_ok)); vm_compute; reflexivity.
Defined.

Lemma connect_upstream_outcome_witness :
  true = match str_to_ip (m_TariNodeIsV6 (accepted T_ok))
                 (m_TariNodeHost (accepted T_ok)) with
         | None => false
         | Some _ => tcp_connect (connects (accepted T_ok))
         end /\
  m_TariNodeIsV6 (paired T_ok) = m_TariNodeIsV6 (accepted T_ok) /\
  m_TariNodeHost (paired T_ok) = m_TariNodeHost (accepted T_ok) /\
  m_TariNodePort (paired T_ok) = m_TariNodePort (accepted T_ok) /\
  m_listenPort (paired T_ok) = m_listenPort (accepted T_ok) /\
  m_loopThreadCreated (paired T_ok) = m_loopThreadCreated (accepted T_ok) /\
  m_callbackBuf (paired T_ok) = m_callbackBuf (accepted T_ok) /\
  binds (paired T_ok) = binds (accepted T_ok) /\
  (true = true ->
     m_preallocatedClients (paired T_ok)
       = tail (m_preallocatedClients (accepted T_ok)) /\
     connects (paired T_ok) = S (connects (accepted T_ok))).
Proof.
  apply (connect_upstream_outcome (accepted T_ok) (paired T_ok) 0%nat true).
  vm_compute. reflexivity.
Defined.

Lemma connect_upstream_targets_node_witness :
  exists upstream s1 u1,
    get_client (accepted T_ok) = Some (upstream, s1) /\
    heap (paired T_ok) !! upstream = Some u1 /\
    m_owner u1 = true /\
    m_port u1 = m_TariNodePort (accepted T_ok) /\
    m_isV6 u1 = m_TariNodeIsV6 (accepted T_ok) /\
    forall addr,
      str_to_ip (m_TariNodeIsV6 (accepted T_ok)) (m_TariNodeHost (accepted T_ok))
        = Some addr ->
      m_addr u1 = addr /\
      m_addrString u1
      = format_addr (m_TariNodeIsV6 (accepted T_ok))
          (m_TariNodeHost (accepted T_ok)) (m_TariNodePort (accepted T_ok)).
Proof.
  apply (connect_upstream_targets_node (accepted T_ok) (paired T_ok) 0%nat true).
  vm_compute. reflexivity.
Defined.

Lemma on_connect_enables_forwarding_witness :
  exists upstream d1 u1 sd su d2 u2,
    heap (paired T_ok) !! 0%nat = Some d1 /\
    heap (paired T_ok) !! upstream = Some u1 /\
    m_pairedClient d1 = Some upstream /\
    m_pairedClient u1 = Some 0%nat /\
    on_read 0%nat [x01; x02] 2 (paired T_ok) = Some (true, sd) /\
    heap sd !! upstream = Some u2 /\
    m_sent u2 = m_sent u1 ++ take (Z.to_nat 2) [x01; x02] /\
    (forall t, t <> upstream -> heap sd !! t = heap (paired T_ok) !! t) /\
    on_read upstream [x01; x02] 2 (paired T_ok) = Some (true, su) /\
    heap su !! 0%nat = Some d2 /\
    m_sent d2 = m_sent d1 ++ take (Z.to_nat 2) [x01; x02] /\
    (forall t, t <> 0%nat -> heap su !! t = heap (paired T_ok) !! t).
Proof.
  apply (on_connect_enables_forwarding (accepted T_ok) (paired T_ok) 0%nat
           (incoming T_ok)).
  - reflexivity.
  - reflexivity.
  - vm_compute. reflexivity.
  - vm_compute. split; [reflexivity | discriminate].
  - vm_compute. lia.
Defined.


Lemma start_stops_at_first_bind_witness :
  binds (start (accepted T_ok)).2
    = binds (accepted T_ok)
      ++ map (fun j => mkEndpoint false "127.0.0.1" (random_port j)) (seq 0 1) /\
  external_listen_port (start (accepted T_ok)).2 = random_port 0 /\
  (start (accepted T_ok)).1 = (uv_thread_create =? 0).
Proof.
  apply (start_stops_at_first_bind (accepted T_ok) 0).
  - lia.
  - reflexivity.
  - intros j Hj. lia.
Defined.

Lemma job_alone_never_publishes_witness :
  get_params
    (merge_mining_get_chain_id_job (node true true (replicate 32 x2a)) client_unset).1
    params_unset
  = (false, params_unset).
Proof.
  apply (job_alone_never_publishes (node true true (replicate 32 x2a)) client_unset).
  reflexivity.
Defined.

Lemma job_publishes_when_diff_is_set_witness :
  get_params
    (merge_mining_get_chain_id_job (node true true (replicate 32 x2a)) client_waiting).1
    params_unset
  = (true, mkChainParameters (mkHash (replicate 32 x2a)) [x01; x00]).
Proof.
  apply (job_publishes_when_diff_is_set (node true true (replicate 32 x2a))
           client_waiting params_unset); reflexivity.
Defined.

Lemma last_accepted_candidate_is_kept_witness :
  m_TariNodeIsV6
    (parse_address_list
       (fun _ => [mkCandidate false "a" "10.0.0.5" 9000;
                  mkCandidate true "b" "::1" 9001])
       "a,b" (address_callback false (fun _ _ => None)) (TariServer_new 4))
  = true /\
  m_TariNodeHost
    (parse_address_list
       (fun _ => [mkCandidate false "a" "10.0.0.5" 9000;
                  mkCandidate true "b" "::1" 9001])
       "a,b" (address_callback false (fun _ _ => None)) (TariServer_new 4))
  = "::1"%string /\
  m_TariNodePort
    (parse_address_list
       (fun _ => [mkCandidate false "a" "10.0.0.5" 9000;
                  mkCandidate true "b" "::1" 9001])
       "a,b" (address_callback false (fun _ _ => None)) (TariServer_new 4))
  = 9001.
Proof.
  pose proof (last_accepted_candidate_is_kept
                (fun _ => [mkCandidate false "a" "10.0.0.5" 9000;
                           mkCandidate true "b" "::1" 9001])
                "a,b" false (fun _ _ => None) (TariServer_new 4)) as Hkept.
  cbv zeta in Hkept.
  apply (proj1 Hkept [mkCandidate false "a" "10.0.0.5" 9000]
           (mkCandidate true "b" "::1" 9001) []).
  - reflexivity.
  - split; reflexivity.
  - constructor.
Defined.

Lemma constructed_client_is_ready_witness :
  (exists rest, "tari://10.0.0.5/"%string = ("tari://" ++ rest)%string) /\
  [Work_get_chain_id] = [Work_get_chain_id] /\
  forall client queue,
    rtc (concurrently (Status := bool) (NewBlockTemplate := unit))
      (constructed_client, [Work_get_chain_id]) (client, queue) ->
    m_hostStr client = "tari://10.0.0.5/"%string /\
    m_auxWallet client = "wallet"%string /\
    m_TariNodeHost (m_server client) <> EmptyString /\
    m_TariNodePort (m_server client) <> 0 /\
    m_TariNodePort (m_server client) < 65536 /\
    49152 <= external_listen_port (m_server client) <= 65535 /\
    In (mkEndpoint false "127.0.0.1" (external_listen_port (m_server client)))
      (binds (m_server client)) /\
    (length (binds (m_server client)) <= 10)%nat /\
    m_loopThreadCreated (m_server client) = true /\
    aux_diff (m_chainParams client)
    = (@nil byte : @difficulty_type spec_types) /\
    length (h (aux_id (m_chainParams client))) = HASH_SIZE /\
    (queue = [Work_get_chain_id] /\
     m_chainParams client
     = ChainParameters_zero (@nil byte : @difficulty_type spec_types)
     \/ queue = []).
Proof.
  apply (constructed_client_is_ready (Status := bool) (NewBlockTemplate := unit)
           "tari://" false (fun _ _ => None)
           parse_one 4 (@nil byte : @difficulty_type spec_types)
           "tari://10.0.0.5/" "wallet" constructed_client [Work_get_chain_id]).
  vm_compute. reflexivity.
Defined.

End MoreRuns.
